(** * Shallow embedding of the nfl-matchup-live scoring core.

    Sources: [src/data_providers.py] (compute_team_unit_metrics) and
    [src/streamlit_app.py] (normalize, unitize_offense, unitize_defense,
    build_maps, unit_matchup, adjusted_team_edge and the verdict code).

    Python floats are read as exact rationals [Q]; a pandas NaN (or a
    missing value) is [None].  The roll-up of [adjusted_team_edge] is also
    instantiated at IEEE binary64 ([PrimFloat.float]) so that rounding can
    be observed where a statement depends on it. *)

From Stdlib Require Import ZArith QArith Qminmax Lqa Lia List String Bool.
From Stdlib Require Import PrimFloat.
From stdpp Require Import base gmap strings pretty.

Set Warnings "-inexact-float,-register-all".

Import ListNotations.
Open Scope Q_scope.

(** ** Play records (one row of the play-by-play frame) *)

(** A missing [air_yards] column ([air = np.nan]) is the same as every row
    having [air_yards = None]; a missing [sack] column is the same as every
    row having [sack = None] (it is then filled with 0). *)
Record Play := mkPlay {
  season : Z;
  week : Z;
  season_type : string;
  play_type : string;
  posteam : option string;
  defteam : option string;
  epa : option Q;
  yards_gained : Q;
  air_yards : option Q;
  sack : option Z
}.

Definition is_present {A} (x : option A) : bool :=
  match x with Some _ => true | None => false end.

(** [df[(df.season == season) & (df.week <= int(week)) & (df.season_type == "REG")]] *)
Definition keep_season_week (season_ week_ : Z) (p : Play) : bool :=
  Z.eqb (season p) season_ && Z.leb (week p) week_ &&
  String.eqb (season_type p) "REG".

(** [df[df.play_type.isin(["pass", "run"]) & df.epa.notna()]] *)
Definition keep_play (p : Play) : bool :=
  (String.eqb (play_type p) "pass" || String.eqb (play_type p) "run") &&
  is_present (epa p).

(** Strict comparison on [Q] as a boolean. *)
Definition Qlt_bool (x y : Q) : bool := negb (Qle_bool y x).

(** NaN compares false: [NaN > 0], [NaN >= 20] are all [False]. *)
Definition gt_opt (x : option Q) (c : Q) : bool :=
  match x with Some v => Qlt_bool c v | None => false end.
Definition ge_opt (x : option Q) (c : Q) : bool :=
  match x with Some v => Qle_bool c v | None => false end.

(** A play of the filtered frame with its two derived columns. *)
Record DPlay := mkDPlay {
  dp : Play;
  success : Z;
  explosive : Z
}.

(** [df["success"] = (df["epa"] > 0).astype(int)] and the nested [np.where]
    for [df["explosive"]]. *)
Definition derive (p : Play) : DPlay :=
  mkDPlay p
    (if gt_opt (epa p) 0 then 1%Z else 0%Z)
    (if String.eqb (play_type p) "pass" && ge_opt (air_yards p) 20 then 1%Z
     else if String.eqb (play_type p) "run" && Qle_bool 12 (yards_gained p) then 1%Z
     else 0%Z).

(** ** pandas building blocks *)

(** [groupby(key, dropna=True)] keys: NaN keys dropped, keys sorted. *)
Fixpoint insert_key (k : string) (ks : list string) : list string :=
  match ks with
  | [] => [k]
  | k' :: ks' =>
      if String.eqb k k' then ks
      else if String.ltb k k' then k :: ks
      else k' :: insert_key k ks'
  end.

Definition group_keys {R} (key : R -> option string) (l : list R) : list string :=
  fold_right (fun r ks => match key r with Some k => insert_key k ks | None => ks end) [] l.

Definition key_is {R} (key : R -> option string) (t : string) (r : R) : bool :=
  match key r with Some k => String.eqb k t | None => false end.

(** The rows of group [t]. *)
Definition group_rows {R} (key : R -> option string) (t : string) (l : list R) : list R :=
  List.filter (key_is key t) l.

(** [df.groupby(key).agg(...).reset_index()]: one row per key. *)
Definition groupby_agg {R A} (key : R -> option string) (agg : list R -> A) (l : list R)
    : list (string * A) :=
  map (fun t => (t, agg (group_rows key t l))) (group_keys key l).

(** Lookup of a team in a table keyed by team (first match). *)
Definition assoc {A} (t : string) (tbl : list (string * A)) : option A :=
  match find (fun x => String.eqb (fst x) t) tbl with
  | Some (_, a) => Some a
  | None => None
  end.

(** [pd.merge(a, b, on="team", how="outer")]: sorted union of the keys,
    a side without the key holds NaN. *)
Definition merge_outer {A B} (a : list (string * A)) (b : list (string * B))
    : list (string * (option A * option B)) :=
  map (fun t => (t, (assoc t a, assoc t b)))
      (fold_right insert_key [] (map fst a ++ map fst b)).

(** [a.merge(b, on="team", how="left")]: left rows kept in order. *)
Definition merge_left {A B} (a : list (string * A)) (b : list (string * B))
    : list (string * (A * option B)) :=
  map (fun x => (fst x, (snd x, assoc (fst x) b))) a.

Definition sum_Z {R} (f : R -> Z) (l : list R) : Z :=
  fold_right (fun r acc => (f r + acc)%Z) 0%Z l.

(** [s.dropna()]: the present values, in order. *)
Fixpoint dropna (l : list (option Q)) : list Q :=
  match l with
  | [] => []
  | Some v :: l' => v :: dropna l'
  | None :: l' => dropna l'
  end.

Definition sumQ (l : list Q) : Q := fold_right Qplus 0 l.

(** [Series.mean()] with [skipna=True]: NaN when nothing is present. *)
Definition skipna_mean (l : list (option Q)) : option Q :=
  match dropna l with
  | [] => None
  | vs => Some (sumQ vs / inject_Z (Z.of_nat (length vs)))
  end.

(** [count] over a column with no NaN is the group size. *)
Definition count {R} (l : list R) : Z := Z.of_nat (length l).

(** A table built by [pd.DataFrame(list_of_dicts)]: its columns are the
    keys of the dicts, so an empty list gives a frame with no columns. *)
Record Frame (R : Type) := mkFrame { columns : list string; rows : list R }.
Arguments mkFrame {R}.
Arguments columns {R}.
Arguments rows {R}.

Definition DataFrame_of_dicts {R} (keys : list string) (rs : list R) : Frame R :=
  mkFrame (match rs with [] => [] | _ => keys end) rs.

(** ** compute_team_unit_metrics *)

Record OffenseUnitMetric := mkOff {
  o_team : string; o_unit : string;
  epa_per_play : option Q; success_rate : option Q; explosive_rate : option Q;
  pass_block_win : option Q; run_block_win : option Q
}.

Record DefenseUnitMetric := mkDef {
  d_team : string; d_unit : string;
  epa_allowed : option Q; success_allowed : option Q; explosive_allowed : option Q;
  pressure_rate : option Q; run_stop_win : option Q; coverage_grade : option Q
}.

Definition offense_columns : list string :=
  ["team"; "unit"; "epa_per_play"; "success_rate"; "explosive_rate";
   "pass_block_win"; "run_block_win"].

Definition defense_columns : list string :=
  ["team"; "unit"; "epa_allowed"; "success_allowed"; "explosive_allowed";
   "pressure_rate"; "run_stop_win"; "coverage_grade"].

Definition off_key (d : DPlay) : option string := posteam (dp d).
Definition def_key (d : DPlay) : option string := defteam (dp d).

(** [pass_df["sack"].fillna(0).astype(int)] *)
Definition sack_filled (d : DPlay) : Z :=
  match sack (dp d) with Some s => s | None => 0%Z end.

(** [run_df["stuffed"] = (run_df["yards_gained"] <= 0).astype(int)] *)
Definition stuffed (d : DPlay) : Z :=
  if Qle_bool (yards_gained (dp d)) 0 then 1%Z else 0%Z.

(** [x / n.clip(lower=1)] *)
Definition ratio (x n : Z) : Q := inject_Z x / inject_Z (Z.max n 1).

(** The three rates of a group: mean epa, mean success, mean explosive. *)
Definition rates (g : list DPlay) : option Q * option Q * option Q :=
  (skipna_mean (map (fun d => epa (dp d)) g),
   skipna_mean (map (fun d => Some (inject_Z (success d))) g),
   skipna_mean (map (fun d => Some (inject_Z (explosive d))) g)).

Definition filtered (pbp : list Play) (season_ week_ : Z) : list DPlay :=
  map derive (List.filter keep_play (List.filter (keep_season_week season_ week_) pbp)).

Definition pass_df (df : list DPlay) : list DPlay :=
  List.filter (fun d => String.eqb (play_type (dp d)) "pass") df.
Definition run_df (df : list DPlay) : list DPlay :=
  List.filter (fun d => String.eqb (play_type (dp d)) "run") df.

Definition ol_pass (df : list DPlay) : list (string * Q) :=
  groupby_agg off_key (fun g => 1 - ratio (sum_Z sack_filled g) (count g)) (pass_df df).
Definition ol_run (df : list DPlay) : list (string * Q) :=
  groupby_agg off_key (fun g => 1 - ratio (sum_Z stuffed g) (count g)) (run_df df).
Definition def_pass (df : list DPlay) : list (string * Q) :=
  groupby_agg def_key (fun g => ratio (sum_Z sack_filled g) (count g)) (pass_df df).
Definition def_run (df : list DPlay) : list (string * Q) :=
  groupby_agg def_key (fun g => ratio (sum_Z stuffed g) (count g)) (run_df df).

Definition skill_rows (t : string) (r : option Q * option Q * option Q)
    : list OffenseUnitMetric :=
  let '(e, s, x) := r in
  map (fun u => mkOff t u e s x None None) ["QB"; "RB"; "WR"; "TE"].

Definition ol_row (x : string * (option Q * option Q)) : OffenseUnitMetric :=
  mkOff (fst x) "OL" None None None (fst (snd x)) (snd (snd x)).

Definition defense_rows
    (x : string * ((option Q * option Q * option Q) * option Q * option Q))
    : list DefenseUnitMetric :=
  let '(t, ((e, s, xp), pr, rs)) := x in
  [mkDef t "PassRush" None None None pr None None;
   mkDef t "RunDefense" None None xp None rs None;
   mkDef t "CoverageDB" e s xp None None None;
   mkDef t "CoverageLB" e s xp None None None;
   mkDef t "DL" None None None None rs None].

Definition compute_team_unit_metrics (pbp : list Play) (season_ week_ : Z)
    : Frame OffenseUnitMetric * Frame DefenseUnitMetric :=
  let df := filtered pbp season_ week_ in
  let off := groupby_agg off_key rates df in
  let ol := merge_outer (ol_pass df) (ol_run df) in
  let offense_units :=
    flat_map (fun x => skill_rows (fst x) (snd x)) off ++ map ol_row ol in
  let deff := merge_left (merge_left (groupby_agg def_key rates df) (def_pass df))
                         (def_run df) in
  let defense_units :=
    flat_map defense_rows deff in
  (DataFrame_of_dicts offense_columns offense_units,
   DataFrame_of_dicts defense_columns defense_units).

(** ** Python exceptions as a small error monad *)

Inductive PyExc := KeyError (k : string).

Inductive PyResult (A : Type) := Ok (a : A) | Raise (e : PyExc).
Arguments Ok {A}.
Arguments Raise {A}.

Definition py_bind {A B} (c : PyResult A) (k : A -> PyResult B) : PyResult B :=
  match c with Ok a => k a | Raise e => Raise e end.

Notation "'let?' x ':=' c 'in' k" := (py_bind c (fun x => k))
  (at level 200, x name, c at level 100, k at level 200).

(** [fr[name]]: a missing column raises [KeyError]. *)
Definition col {R} (fr : Frame R) (name : string) (proj : R -> option Q)
    : PyResult (list (option Q)) :=
  if existsb (String.eqb name) (columns fr) then Ok (map proj (rows fr))
  else Raise (KeyError name).

(** ** normalize (streamlit_app.py) *)

(** [Series.nunique()] on present values ([Q] equality). *)
Fixpoint nunique (l : list Q) : nat :=
  match l with
  | [] => 0
  | x :: l' => if existsb (Qeq_bool x) l' then nunique l' else S (nunique l')
  end.

(** [s.min(skipna=True)], [s.max(skipna=True)]: NaN on no present value. *)
Definition series_min (s : list (option Q)) : option Q :=
  fold_right (fun x acc => match acc with None => Some x | Some m => Some (Qmin x m) end)
             None (dropna s).
Definition series_max (s : list (option Q)) : option Q :=
  fold_right (fun x acc => match acc with None => Some x | Some m => Some (Qmax x m) end)
             None (dropna s).

Definition halves (s : list (option Q)) : list (option Q) := map (fun _ => Some (1#2)) s.

Definition normalize (s : list (option Q)) (invert : bool) : list (option Q) :=
  let out :=
    if Nat.leb (nunique (dropna s)) 1 then halves s
    else match series_min s, series_max s with
         | Some mn, Some mx =>
             if Qeq_bool mx mn then halves s
             else map (option_map (fun x => (x - mn) / (mx - mn))) s
         | _, _ => halves s
         end in
  if invert then map (option_map (fun y => 1 - y)) out else out.

(** ** Unit scores *)

(** [np.mean(vals)] on a non-empty list. *)
Definition np_mean (vs : list Q) : Q := sumQ vs / inject_Z (Z.of_nat (length vs)).

(** [vals = [v for v in vals if pd.notna(v)]; float(np.mean(vals)) if vals else np.nan] *)
Definition mean_present (vals : list (option Q)) : option Q :=
  match dropna vals with [] => None | vs => Some (np_mean vs) end.

Record OffNorm := mkOffN {
  on_team : string; on_unit : string;
  epa_n : option Q; succ_n : option Q; expl_n : option Q;
  pbw_n : option Q; rbw_n : option Q
}.

Definition offense_unit_score (r : OffNorm) : option Q :=
  let vals := if String.eqb (on_unit r) "OL" then [pbw_n r; rbw_n r]
              else [epa_n r; succ_n r; expl_n r] in
  mean_present vals.

Record DefNorm := mkDefN {
  dn_team : string; dn_unit : string;
  epa_allowed_n : option Q; succ_allowed_n : option Q; expl_allowed_n : option Q;
  pressure_n : option Q; run_stop_win_n : option Q; coverage_n : option Q
}.

Definition defense_unit_score (r : DefNorm) : option Q :=
  let u := dn_unit r in
  let vals :=
    if String.eqb u "PassRush" then [pressure_n r]
    else if String.eqb u "RunDefense" then [run_stop_win_n r; expl_allowed_n r; succ_allowed_n r]
    else if String.eqb u "CoverageDB" || String.eqb u "CoverageLB" then
      [coverage_n r; epa_allowed_n r; succ_allowed_n r; expl_allowed_n r]
    else if String.eqb u "DL" then [run_stop_win_n r]
    else [] in
  mean_present vals.

(** [frame.apply(score, axis=1)] reads [r["unit"]] on every row: a frame with
    rows but no [unit] column raises [KeyError('unit')]; on a frame without
    rows the scorer is never run. *)
Definition unit_readable {R} (fr : Frame R) : bool :=
  match rows fr with
  | [] => true
  | _ :: _ => existsb (String.eqb "unit") (columns fr)
  end.

(** [nth] with NaN past the end (the columns all have the frame's length). *)
Definition at_ (l : list (option Q)) (i : nat) : option Q := nth i l None.

Definition unitize_offense (fr : Frame OffenseUnitMetric)
    : PyResult (list (OffNorm * option Q)) :=
  let? e := col fr "epa_per_play" epa_per_play in
  let? su := col fr "success_rate" success_rate in
  let? x := col fr "explosive_rate" explosive_rate in
  let? pb := col fr "pass_block_win" pass_block_win in
  let? rb := col fr "run_block_win" run_block_win in
  let e := normalize e false in let su := normalize su false in
  let x := normalize x false in let pb := normalize pb false in
  let rb := normalize rb false in
  if unit_readable fr then
  Ok (map (fun ir =>
        let '(i, r) := ir in
        let n := mkOffN (o_team r) (o_unit r) (at_ e i) (at_ su i) (at_ x i)
                        (at_ pb i) (at_ rb i) in
        (n, offense_unit_score n))
      (combine (seq 0 (length (rows fr))) (rows fr)))
  else Raise (KeyError "unit").

Definition unitize_defense (fr : Frame DefenseUnitMetric)
    : PyResult (list (DefNorm * option Q)) :=
  let? e := col fr "epa_allowed" epa_allowed in
  let? su := col fr "success_allowed" success_allowed in
  let? x := col fr "explosive_allowed" explosive_allowed in
  let? pr := col fr "pressure_rate" pressure_rate in
  let? rs := col fr "run_stop_win" run_stop_win in
  let? cv := col fr "coverage_grade" coverage_grade in
  let e := normalize e true in let su := normalize su true in
  let x := normalize x true in let pr := normalize pr false in
  let rs := normalize rs false in let cv := normalize cv false in
  if unit_readable fr then
  Ok (map (fun ir =>
        let '(i, r) := ir in
        let n := mkDefN (d_team r) (d_unit r) (at_ e i) (at_ su i) (at_ x i)
                        (at_ pr i) (at_ rs i) (at_ cv i) in
        (n, defense_unit_score n))
      (combine (seq 0 (length (rows fr))) (rows fr)))
  else Raise (KeyError "unit").

(** ** Score maps and the matchup engine *)

Abbreviation ScoreMap := (gmap (string * string) (option Q)).

(** [{(r.team, r.unit): r.unit_off_score for r in of.itertuples()}]: a later
    row with the same key overwrites an earlier one. *)
Definition build_maps (of : list (OffNorm * option Q)) (df : list (DefNorm * option Q))
    : ScoreMap * ScoreMap :=
  (fold_left (fun m r => <[(on_team (fst r), on_unit (fst r)) := snd r]> m) of ∅,
   fold_left (fun m r => <[(dn_team (fst r), dn_unit (fst r)) := snd r]> m) df ∅).

(** [m.get(key, np.nan)] *)
Definition get (m : ScoreMap) (k : string * string) : option Q :=
  match m !! k with Some v => v | None => None end.

(** [(x * w if pd.notna(x) else 0)] *)
Definition term (x : option Q) (w : Q) : Q :=
  match x with Some v => v * w | None => 0 end.

(** [off - (a*w if notna(a) else 0) - (b*(1-w) if notna(b) else 0) if notna(off) else nan] *)
Definition blend_edge (off a b : option Q) (w : Q) : option Q :=
  match off with Some o => Some (o - term a w - term b (1 - w)) | None => None end.

Record Edges := mkEdges {
  QB_edge : option Q; RB_edge : option Q; WR_edge : option Q;
  TE_edge : option Q; OL_edge : option Q
}.

Definition unit_matchup (off_team def_team : string) (off_map def_map : ScoreMap)
    (qb_cov_w rb_run_w te_covlb_w ol_pass_w : Q) : Edges :=
  let qb_cov := get def_map (def_team, "CoverageDB") in
  let qb_pr := get def_map (def_team, "PassRush") in
  let qb_off := get off_map (off_team, "QB") in
  let qb_edge := blend_edge qb_off qb_cov qb_pr qb_cov_w in
  let rb_run := get def_map (def_team, "RunDefense") in
  let rb_cov := get def_map (def_team, "CoverageLB") in
  let rb_off := get off_map (off_team, "RB") in
  let rb_edge := blend_edge rb_off rb_run rb_cov rb_run_w in
  let wr_cov := get def_map (def_team, "CoverageDB") in
  let wr_off := get off_map (off_team, "WR") in
  let wr_edge := match wr_off, wr_cov with
                 | Some o, Some c => Some (o - c)
                 | _, _ => None
                 end in
  let te_covlb := get def_map (def_team, "CoverageLB") in
  let te_covdb := get def_map (def_team, "CoverageDB") in
  let te_off := get off_map (off_team, "TE") in
  let te_edge := blend_edge te_off te_covlb te_covdb te_covlb_w in
  let ol_pr := get def_map (def_team, "PassRush") in
  let ol_run := get def_map (def_team, "RunDefense") in
  let ol_off := get off_map (off_team, "OL") in
  let ol_edge := blend_edge ol_off ol_pr ol_run ol_pass_w in
  mkEdges qb_edge rb_edge wr_edge te_edge ol_edge.

(** ** Edge adjuster *)

(** [np.clip(a, lo, hi)] = [minimum(maximum(a, lo), hi)]. *)
Definition np_clip (a lo hi : Q) : Q := Qmin (Qmax a lo) hi.

(** [ttf = 1.0 if pd.isna(ol_edge) else np.clip(0.6 + 0.4*ol_edge*dep_strength, 0.2, 1.0)] *)
Definition ttf_of (ol_edge : option Q) (dep_strength : Q) : Q :=
  match ol_edge with
  | None => 1
  | Some e => np_clip ((6#10) + (4#10) * e * dep_strength) (2#10) 1
  end.

(** [raw[k] * ttf if pd.notna(raw[k]) else np.nan] *)
Definition scale (x : option Q) (ttf : Q) : option Q := option_map (fun v => v * ttf) x.

Definition adjust (raw : Edges) (ttf : Q) : Edges :=
  mkEdges (scale (QB_edge raw) ttf) (RB_edge raw) (scale (WR_edge raw) ttf)
          (scale (TE_edge raw) ttf) (OL_edge raw).

(** The keys of the [weights] dict. *)
Inductive UnitKey := QB | RB | WR | TE | OL.

(** [adj.items()] in the dict's insertion order: QB, WR, TE, RB, OL. *)
Definition adj_items {A} (qb rb wr te ol : A) : list (UnitKey * A) :=
  [(QB, qb); (WR, wr); (TE, te); (RB, rb); (OL, ol)].

Definition items (adj : Edges) : list (UnitKey * option Q) :=
  adj_items (QB_edge adj) (RB_edge adj) (WR_edge adj) (TE_edge adj) (OL_edge adj).

(** The weighted roll-up loop of [adjusted_team_edge], over any number type
    with [0.0], [+], [*], [/] and [<]. *)
Section Rollup.
Variable A : Type.
Variables (zero : A) (add mul div : A -> A -> A) (ltb : A -> A -> bool).

Definition rollup_step (weights : UnitKey -> A) (acc : A * A) (kv : UnitKey * option A)
    : A * A :=
  let '(total, wsum) := acc in
  match snd kv with
  | Some v =>
      if ltb zero (weights (fst kv))
      then (add total (mul (weights (fst kv)) v), add wsum (weights (fst kv)))
      else acc
  | None => acc
  end.

(** [team_edge = (total/wsum) if wsum>0 else np.nan] *)
Definition weighted_rollup (weights : UnitKey -> A) (adj : list (UnitKey * option A))
    : option A :=
  let '(total, wsum) := fold_left (rollup_step weights) adj (zero, zero) in
  if ltb zero wsum then Some (div total wsum) else None.
End Rollup.

(** The roll-up in exact arithmetic; the source computes it on floats,
    which [team_edge_float] models. *)
Definition team_edge_Q (weights : UnitKey -> Q) (adj : Edges) : option Q :=
  weighted_rollup Q 0 Qplus Qmult Qdiv Qlt_bool weights (items adj).

(** The same roll-up on IEEE binary64, Python's [float]. *)
Definition team_edge_float (weights : UnitKey -> float)
    (qb rb wr te ol : option float) : option float :=
  weighted_rollup float 0%float PrimFloat.add PrimFloat.mul PrimFloat.div PrimFloat.ltb
    weights (adj_items qb rb wr te ol).

Definition adjusted_team_edge (off_team def_team : string) (off_map def_map : ScoreMap)
    (dep_strength : Q) (weights : UnitKey -> Q)
    (qb_cov_w rb_run_w te_covlb_w ol_pass_w : Q) : option Q * Edges * Edges * Q :=
  let raw := unit_matchup off_team def_team off_map def_map
                          qb_cov_w rb_run_w te_covlb_w ol_pass_w in
  let ttf := ttf_of (OL_edge raw) dep_strength in
  let adj := adjust raw ttf in
  (team_edge_Q weights adj, raw, adj, ttf).

(** ** Verdict (module level of streamlit_app.py) *)

(** [net = home_edge - away_edge if (notna(home_edge) and notna(away_edge)) else nan] *)
Definition net_edge (home_edge away_edge : option Q) : option Q :=
  match home_edge, away_edge with
  | Some h, Some a => Some (h - a)
  | _, _ => None
  end.

Inductive Verdict :=
| InsufficientData                     (* "Insufficient data" *)
| ShouldWin (winner loser : string)    (* "**{winner} should win over {loser}**" *)
| TooClose.                            (* "**Too close to call**" *)

Definition verdict (home away : string) (net : option Q) (close_margin : Q) : Verdict :=
  match net with
  | None => InsufficientData
  | Some n =>
      if Qlt_bool close_margin n then ShouldWin home away
      else if Qlt_bool n (- close_margin) then ShouldWin away home
      else TooClose
  end.

(** One game of the loop over the week's schedule. *)
Record GameConfig := mkConfig {
  dep_strength : Q; weights : UnitKey -> Q;
  qb_cov_w : Q; rb_run_w : Q; te_covlb_w : Q; ol_pass_w : Q;
  close_margin : Q
}.

Definition side_edge (cfg : GameConfig) (o d : string) (off_map def_map : ScoreMap)
    : option Q * Edges * Edges * Q :=
  adjusted_team_edge o d off_map def_map (dep_strength cfg) (weights cfg)
    (qb_cov_w cfg) (rb_run_w cfg) (te_covlb_w cfg) (ol_pass_w cfg).

Definition game_verdict (cfg : GameConfig) (home away : string) (off_map def_map : ScoreMap)
    : option Q * Verdict :=
  let '(home_edge, _, _, _) := side_edge cfg home away off_map def_map in
  let '(away_edge, _, _, _) := side_edge cfg away home off_map def_map in
  let net := net_edge home_edge away_edge in
  (net, verdict home away net (close_margin cfg)).

(** ** Statements from the spec's words *)

(** The units that take part in the roll-up: present edge, weight > 0. *)
Fixpoint qualifying_units (w : UnitKey -> Q) (l : list (UnitKey * option Q))
    : list (UnitKey * Q) :=
  match l with
  | [] => []
  | (k, Some v) :: l' =>
      if Qlt_bool 0 (w k) then (k, v) :: qualifying_units w l' else qualifying_units w l'
  | (_, None) :: l' => qualifying_units w l'
  end.

Definition weighted_sum (w : UnitKey -> Q) (l : list (UnitKey * Q)) : Q :=
  sumQ (map (fun kv => w (fst kv) * snd kv) l).
Definition weight_sum (w : UnitKey -> Q) (l : list (UnitKey * Q)) : Q :=
  sumQ (map (fun kv => w (fst kv)) l).

(** A defensive term of a blended edge: an absent score contributes 0. *)
Definition contribution (x : option Q) (share : Q) : Q :=
  match x with Some v => v * share | None => 0 end.

(** Mean of the present values; absent when every value is absent. *)
Definition spec_unit_mean (vals : list (option Q)) : option Q :=
  if forallb (fun v => negb (is_present v)) vals then None
  else Some (sumQ (dropna vals) / inject_Z (Z.of_nat (length (dropna vals)))).

(** The unit names the matchup engine reads from each map. *)
Definition offense_unit_names : list string := ["QB"; "RB"; "WR"; "TE"; "OL"].
Definition defense_unit_names : list string :=
  ["PassRush"; "RunDefense"; "CoverageDB"; "CoverageLB"; "DL"].

(** The sidebar's default settings. *)
Definition default_weights (k : UnitKey) : Q :=
  match k with QB => 12#10 | RB => 7#10 | WR => 11#10 | TE => 6#10 | OL => 11#10 end.

Definition default_config : GameConfig :=
  mkConfig 1 default_weights (6#10) (65#100) (55#100) (6#10) (15#100).

(** Two teams with the same unit scores: every offense unit 1.0, every
    defense unit 0.0. *)
Definition twin_off_map : ScoreMap :=
  list_to_map (map (fun u => (("KC", u), Some 1)) offense_unit_names ++
               map (fun u => (("BAL", u), Some 1)) offense_unit_names).
Definition twin_def_map : ScoreMap :=
  list_to_map (map (fun u => (("KC", u), Some 0)) defense_unit_names ++
               map (fun u => (("BAL", u), Some 0)) defense_unit_names).

(** KC scores 1 on every unit, BAL scores 0 on every unit. *)
Definition lopsided_off_map : ScoreMap :=
  list_to_map (map (fun u => (("KC", u), Some 1)) offense_unit_names ++
               map (fun u => (("BAL", u), Some 0)) offense_unit_names).
Definition lopsided_def_map : ScoreMap :=
  list_to_map (map (fun u => (("KC", u), Some 1)) defense_unit_names ++
               map (fun u => (("BAL", u), Some 0)) defense_unit_names).

(** The aggregation filter as the spec words it. *)
Definition spec_kept (season_ week_ : Z) (p : Play) : bool :=
  Z.eqb (season p) season_ && Z.leb (week p) week_ &&
  String.eqb (season_type p) "REG" &&
  existsb (String.eqb (play_type p)) ["pass"; "run"] &&
  match epa p with Some _ => true | None => false end.

(** The kept plays of one offense. *)
Definition spec_team_plays (pbp : list Play) (season_ week_ : Z) (t : string) : list Play :=
  List.filter (fun p => spec_kept season_ week_ p &&
                        match posteam p with Some k => String.eqb k t | None => false end) pbp.

(** success = epa > 0 *)
Definition spec_success (p : Play) : bool :=
  match epa p with Some e => Qlt_bool 0 e | None => false end.

(** explosive = (pass and air-yards >= 20) or (run and yards-gained >= 12);
    absent air-yards fails the pass branch. *)
Definition spec_explosive (p : Play) : bool :=
  (String.eqb (play_type p) "pass" &&
   match air_yards p with Some a => Qle_bool 20 a | None => false end) ||
  (String.eqb (play_type p) "run" && Qle_bool 12 (yards_gained p)).

(** The fraction of plays satisfying [f]. *)
Definition share (f : Play -> bool) (ps : list Play) : Q :=
  inject_Z (Z.of_nat (length (List.filter f ps))) / inject_Z (Z.of_nat (length ps)).

(** The sack indicator with absent counted as 0. *)
Definition sack_or_zero (p : Play) : Z := match sack p with Some k => k | None => 0%Z end.

(** pass-block-win-proxy = 1 - sacks / max(attempts, 1), for a team with passes. *)
Definition spec_pass_block_win (pbp : list Play) (season_ week_ : Z) (t : string) : option Q :=
  match List.filter (fun p => String.eqb (play_type p) "pass") (spec_team_plays pbp season_ week_ t) with
  | [] => None
  | ps => Some (1 - inject_Z (fold_right (fun p acc => (sack_or_zero p + acc)%Z) 0%Z ps)
                    / inject_Z (Z.max (Z.of_nat (length ps)) 1))
  end.

(** run-block-win-proxy = 1 - stuffed / max(runs, 1), stuffed iff yards-gained <= 0. *)
Definition spec_run_block_win (pbp : list Play) (season_ week_ : Z) (t : string) : option Q :=
  match List.filter (fun p => String.eqb (play_type p) "run") (spec_team_plays pbp season_ week_ t) with
  | [] => None
  | rs => Some (1 - inject_Z (Z.of_nat (length (List.filter (fun p => Qle_bool (yards_gained p) 0) rs)))
                    / inject_Z (Z.max (Z.of_nat (length rs)) 1))
  end.

(** A small play log: KC and BAL, weeks 1-2 of 2024. *)
Definition sample_log : list Play :=
  [mkPlay 2024 1 "REG" "pass" (Some "KC") (Some "BAL") (Some (1#2)) 5 (Some 25) (Some 0%Z);
   mkPlay 2024 2 "REG" "run" (Some "KC") (Some "BAL") (Some (-1#2)) 0 None None;
   mkPlay 2024 2 "REG" "pass" (Some "BAL") (Some "KC") (Some (1#4)) 0 None (Some 1%Z);
   mkPlay 2024 5 "REG" "run" (Some "BAL") (Some "KC") (Some 1) 14 None None].

(** ** Vocabulary of the further properties *)

(** Every present score of a map lies in [[0, 1]]. *)
Definition scores_in_unit (m : ScoreMap) : Prop :=
  forall k v, get m k = Some v -> 0 <= v <= 1.

(** The same, as a check over the map's bindings. *)
Definition scores_in_unit_b (m : ScoreMap) : bool :=
  forallb (fun kv => match snd kv with
                     | Some x => Qle_bool 0 x && Qle_bool x 1
                     | None => true
                     end) (map_to_list m).

(** Every present edge of an [Edges] record lies in [[lo, hi]]. *)
Definition edges_within (lo hi : Q) (E : Edges) : Prop :=
  forall e, In (Some e) [QB_edge E; RB_edge E; WR_edge E; TE_edge E; OL_edge E] ->
            lo <= e <= hi.

Definition edges_within_b (lo hi : Q) (E : Edges) : bool :=
  forallb (fun x => match x with Some e => Qle_bool lo e && Qle_bool e hi | None => true end)
          [QB_edge E; RB_edge E; WR_edge E; TE_edge E; OL_edge E].

(** [x <= y] on values that are both present or both absent. *)
Definition opt_le (x y : option Q) : Prop :=
  match x, y with
  | Some a, Some b => a <= b
  | None, None => True
  | _, _ => False
  end.



(** The score of the last row whose key is [k] (absent when there is none). *)
Definition last_score {R} (key : R -> string * string) (rs : list (R * option Q))
    (k : string * string) : option Q :=
  match find (fun r => bool_decide (key (fst r) = k)) (rev rs) with
  | Some r => snd r
  | None => None
  end.

Definition unitized_sample_offense : list (OffNorm * option Q) :=
  match unitize_offense (fst (compute_team_unit_metrics sample_log 2024 3)) with
  | Ok o => o | Raise _ => []
  end.
Definition unitized_sample_defense : list (DefNorm * option Q) :=
  match unitize_defense (snd (compute_team_unit_metrics sample_log 2024 3)) with
  | Ok o => o | Raise _ => []
  end.

(** * Loading the data (data_providers.py and the loaders of streamlit_app.py) *)

(** ** fetch_pbp_season *)

(** [PBP_FALLBACK_SEASON] *)
Definition PBP_FALLBACK_SEASON : Z := 2024.

(** [df[c] = value]: a new column is appended, an existing one keeps its place. *)
Definition add_column (c : string) (cols : list string) : list string :=
  if existsb (String.eqb c) cols then cols else cols ++ [c].

(** The frame returned by [fetch_pbp_season]: its columns, its play rows and
    the value of its constant [__fallback_notice__] column. *)
Record PbpFrame := mkPbp {
  pbp_columns : list string;
  pbp_rows : list Play;
  fallback_notice : string
}.

(** [f"⚠️ {season} PBP not yet available — using {fb}"] *)
Definition fallback_notice_text (season_ fb : Z) : string :=
  "⚠️ " ++ pretty season_ ++ " PBP not yet available — using " ++ pretty fb.

(** [df["season"] = season] on one row. *)
Definition set_season (s : Z) (p : Play) : Play :=
  mkPlay s (week p) (season_type p) (play_type p) (posteam p) (defteam p)
         (epa p) (yards_gained p) (air_yards p) (sack p).

Section FetchPbp.

(** [pd.read_parquet(io.BytesIO(_http_get(PBP_PARQUET_TMPL.format(season=y)).content))]:
    the frame of season [y], or [None] when the download or the parse raises. *)
Variable read_pbp : Z -> option (Frame Play).

(** [fetch_pbp_season]; [None] is the exception of the fallback download. *)
Definition fetch_pbp_season (season_ : Z) : option PbpFrame :=
  match read_pbp season_ with
  | Some df => Some (mkPbp (add_column "__fallback_notice__" (columns df)) (rows df) "")
  | None =>
      let fb := PBP_FALLBACK_SEASON in
      match read_pbp fb with
      | None => None
      | Some df =>
          let cols := add_column "__fallback_notice__" (columns df) in
          let rs := if existsb (String.eqb "season") cols
                    then map (set_season season_) (rows df) else rows df in
          Some (mkPbp cols rs (fallback_notice_text season_ fb))
      end
  end.

End FetchPbp.

(** ** build_units and the enrichment stubs *)

Definition enrich_with_espn_winrates {O D} (offense_units : O) (defense_units : D)
    (enabled : bool) : O * D * bool :=
  (offense_units, defense_units, false).

Definition enrich_with_sportsdataio {O D} (offense_units : O) (defense_units : D)
    (api_key : option string) : O * D * bool :=
  (offense_units, defense_units, false).

(** Truthiness of [key]: [None] and [""] are false. *)
Definition str_truthy (key : option string) : bool :=
  match key with Some k => negb (String.eqb k "") | None => false end.

Definition espn_info : string :=
  "ESPN win-rate enrichment not implemented in this sample.".
Definition sdio_info : string :=
  "SportsDataIO enrichment stub not implemented in this sample.".

(** [build_units], with the messages it passes to [st.info] in order;
    [key] is [st.secrets.get("SPORTSDATAIO_KEY", None)]. *)
Definition build_units (pbp : list Play) (season_ week_ : Z)
    (espn_enable sdio_enable : bool) (key : option string)
    : Frame OffenseUnitMetric * Frame DefenseUnitMetric * list string :=
  let '(off, deff) := compute_team_unit_metrics pbp season_ week_ in
  let '(off, deff, info1) :=
    if espn_enable then
      let '(off, deff, ok) := enrich_with_espn_winrates off deff true in
      (off, deff, if negb ok then [espn_info] else [])
    else (off, deff, []) in
  let '(off, deff, info2) :=
    if sdio_enable then
      let '(off, deff, ok) := enrich_with_sportsdataio off deff key in
      (off, deff, if negb ok && str_truthy key then [sdio_info] else [])
    else (off, deff, []) in
  (off, deff, info1 ++ info2).

(** ** Schedules from nflverse *)

(** A schedule row, as far as the six columns the code keeps. *)
Record SchedRow := mkSched {
  s_season : Z; s_week : Z; gameday : option string;
  away_team : string; home_team : string; game_type : string
}.

Definition schedule_columns : list string :=
  ["season"; "week"; "gameday"; "away_team"; "home_team"; "game_type"].

Definition SCHEDULE_URLS : list string :=
  ["https://raw.githubusercontent.com/nflverse/nflfastR-data/master/data/schedules.csv.gz";
   "https://raw.githubusercontent.com/nflverse/nflfastR-data/master/data/schedules.csv"].

(** [set(cols).issubset(df.columns)] *)
Definition has_schedule_columns (df : Frame SchedRow) : bool :=
  forallb (fun c => existsb (String.eqb c) (columns df)) schedule_columns.

Section Schedule.

(** [_http_get(url)] then [pd.read_csv] (after [gzip.decompress] for the
    [.gz] URL): the parsed frame, or [None] when one of them raises. *)
Variable read_schedule : string -> option (Frame SchedRow).

(** The loop of [_fetch_schedule_nflverse]: a URL that raises or lacks a
    column ([ValueError], caught) moves on to the next; [None] is the final
    [RuntimeError]. *)
Fixpoint try_schedule_urls (urls : list string) : option (Frame SchedRow) :=
  match urls with
  | [] => None
  | url :: rest =>
      match read_schedule url with
      | Some df =>
          if has_schedule_columns df then Some (mkFrame schedule_columns (rows df))
          else try_schedule_urls rest
      | None => try_schedule_urls rest
      end
  end.

Definition _fetch_schedule_nflverse : option (Frame SchedRow) :=
  try_schedule_urls SCHEDULE_URLS.

Definition fetch_schedule : Frame SchedRow :=
  match _fetch_schedule_nflverse with
  | Some df => df
  | None => mkFrame schedule_columns []
  end.

End Schedule.

(** The games section of the page. *)
Inductive ScheduleSection :=
| NoGamesWarning          (* "No regular-season games found in the schedule for that week." *)
| Picks (games : list SchedRow).

(** [sched[(sched["season"]==season) & (sched["week"]==week) & (sched["game_type"]=="REG")]] *)
Definition week_games (sched : Frame SchedRow) (season_ week_ : Z) : list SchedRow :=
  List.filter (fun g => Z.eqb (s_season g) season_ && Z.eqb (s_week g) week_ &&
                        String.eqb (game_type g) "REG") (rows sched).

(** [if wk.empty: st.warning(...) else: for ... in wk.sort_values("gameday")]:
    [sort_by_gameday] is pandas' (unstable) sort of the rows by [gameday]. *)
Definition schedule_section (sort_by_gameday : list SchedRow -> list SchedRow)
    (sched : Frame SchedRow) (season_ week_ : Z) : ScheduleSection :=
  match week_games sched season_ week_ with
  | [] => NoGamesWarning
  | wk => Picks (sort_by_gameday wk)
  end.

(** ** The page script (streamlit_app.py, from line 152 on) *)

Inductive PageBody :=
| PageWarning                                          (* the [st.warning] of line 160 *)
| PagePicks (games : list (SchedRow * (option Q * Verdict))).  (* one verdict per game *)

(** [sched = load_schedule()], [pbp = load_pbp(season)], [build_units],
    [unitize_offense], [unitize_defense], [build_maps] and the games
    section; [None] is an uncaught exception. *)
Definition page (read_schedule : string -> option (Frame SchedRow))
    (read_pbp : Z -> option (Frame Play))
    (sort_by_gameday : list SchedRow -> list SchedRow) (cfg : GameConfig)
    (season_ week_ : Z) (espn_enable sdio_enable : bool) (key : option string)
    : option PageBody :=
  let sched := fetch_schedule read_schedule in
  match fetch_pbp_season read_pbp season_ with
  | None => None
  | Some pbp =>
      let '(off_u, def_u, _) :=
        build_units (pbp_rows pbp) season_ week_ espn_enable sdio_enable key in
      match unitize_offense off_u with
      | Raise _ => None
      | Ok of =>
          match unitize_defense def_u with
          | Raise _ => None
          | Ok df =>
              let '(off_map, def_map) := build_maps of df in
              match schedule_section sort_by_gameday sched season_ week_ with
              | NoGamesWarning => Some PageWarning
              | Picks games =>
                  Some (PagePicks (map (fun g =>
                    (g, game_verdict cfg (home_team g) (away_team g) off_map def_map)) games))
              end
          end
      end
  end.

(** ** Schedules from ESPN's scoreboard *)

(** A Python [str] as its code points. *)
Abbreviation pystr := (list Z).

Definition py (s : string) : pystr :=
  map (fun a => Z.of_nat (Ascii.nat_of_ascii a)) (list_ascii_of_string s).

(** A value decoded by [.json()]. *)
Inductive Json :=
| JNull
| JBool (b : bool)
| JNum (q : Q)
| JStr (s : pystr)
| JArr (l : list Json)
| JObj (kvs : list (pystr * Json)).

(** A decoded object keeps the last value of a repeated key. *)
Definition dict_lookup (kvs : list (pystr * Json)) (k : pystr) : option Json :=
  match find (fun kv => bool_decide (fst kv = k)) (rev kvs) with
  | Some kv => Some (snd kv)
  | None => None
  end.

(** The keys of a decoded object, each once, in first-insertion order. *)
Definition dict_keys (kvs : list (pystr * Json)) : list pystr :=
  fold_left (fun acc k => if existsb (fun k' => bool_decide (k' = k)) acc then acc
                          else acc ++ [k]) (map fst kvs) [].

(** [x.get(k, d)]: only a dict has [get], anything else raises
    [AttributeError] ([None]). *)
Definition py_get (x : Json) (k : pystr) (d : Json) : option Json :=
  match x with
  | JObj kvs => Some (match dict_lookup kvs k with Some v => v | None => d end)
  | _ => None
  end.

Definition nonempty {A} (l : list A) : bool :=
  match l with [] => false | _ => true end.

Definition truthy (x : Json) : bool :=
  match x with
  | JNull => false
  | JBool b => b
  | JNum q => negb (Qeq_bool q 0)
  | JStr s => nonempty s
  | JArr l => nonempty l
  | JObj kvs => nonempty kvs
  end.

(** [x or y] *)
Definition py_or (x y : Json) : Json := if truthy x then x else y.

(** [for v in x]: a list gives its items, a str its characters, a dict its
    keys; anything else raises [TypeError]. *)
Definition py_iter (x : Json) : option (list Json) :=
  match x with
  | JArr l => Some l
  | JStr s => Some (map (fun c => JStr [c]) s)
  | JObj kvs => Some (map JStr (dict_keys kvs))
  | _ => None
  end.

(** [len(x)] *)
Definition py_len (x : Json) : option nat := option_map (@length Json) (py_iter x).

(** [x[0]] on a true value: the first item of a list or str; a dict has no
    key [0] ([KeyError]), other values raise [TypeError]. *)
Definition py_index0 (x : Json) : option Json :=
  match x with
  | JArr (y :: _) => Some y
  | JStr (c :: _) => Some (JStr [c])
  | _ => None
  end.

(** [next((t for t in teams if t.get("homeAway") == side), None)] *)
Fixpoint next_side (ts : list Json) (side : pystr) : option (option Json) :=
  match ts with
  | [] => Some None
  | t :: rest =>
      match py_get t (py "homeAway") JNull with
      | None => None
      | Some v =>
          if match v with JStr s => bool_decide (s = side) | _ => false end
          then Some (Some t) else next_side rest side
      end
  end.

Record EspnRow := mkEspn {
  e_season : Z; e_week : Z; e_gameday : Json;
  e_away : pystr; e_home : pystr; e_game_type : pystr
}.

Section Espn.

(** [str.upper] *)
Variable upper : pystr -> pystr.

(** [(((x.get("team") or {}).get("abbreviation")) or "").upper()]; a value
    without [upper] raises [AttributeError]. *)
Definition abbr_of (x : Json) : option pystr :=
  match py_get x (py "team") JNull with
  | None => None
  | Some tm =>
      match py_get (py_or tm (JObj [])) (py "abbreviation") JNull with
      | None => None
      | Some a => match py_or a (JStr []) with JStr s => Some (upper s) | _ => None end
      end
  end.

(** The body of [for ev in data.get("events", [])]: [None] when it raises,
    [Some None] when it [continue]s or appends nothing. *)
Definition event_row (season_ wk : Z) (ev : Json) : option (option EspnRow) :=
  match py_get ev (py "competitions") JNull with None => None | Some c =>
  match py_index0 (py_or c (JArr [JObj []])) with None => None | Some comps =>
  match py_get comps (py "competitors") JNull with None => None | Some tv =>
  let teams := py_or tv (JArr []) in
  match py_len teams with None => None | Some n =>
  if negb (Nat.eqb n 2) then Some None else
  match py_iter teams with None => None | Some ts =>
  match next_side ts (py "home") with None => None | Some home =>
  match next_side ts (py "away") with None => None | Some away =>
  match home, away with
  | Some h, Some a =>
      if negb (truthy h) || negb (truthy a) then Some None else
      match abbr_of h with None => None | Some home_abbr =>
      match abbr_of a with None => None | Some away_abbr =>
      match py_get ev (py "date") JNull with None => None | Some gd =>
      if nonempty home_abbr && nonempty away_abbr
      then Some (Some (mkEspn season_ wk gd away_abbr home_abbr (py "REG")))
      else Some None
      end end end
  | _, _ => Some None
  end end end end end end end end.

Fixpoint events_rows (season_ wk : Z) (evs : list Json) : option (list EspnRow) :=
  match evs with
  | [] => Some []
  | ev :: rest =>
      match event_row season_ wk ev with
      | None => None
      | Some r =>
          match events_rows season_ wk rest with
          | None => None
          | Some rs => Some (match r with Some x => x :: rs | None => rs end)
          end
      end
  end.

(** [_http_get(url).json()] for a season and week: [None] when it raises. *)
Variable fetch_week : Z -> Z -> option Json.

(** One week of the loop: a failed download is skipped ([continue]). *)
Definition week_rows (season_ wk : Z) : option (list EspnRow) :=
  match fetch_week season_ wk with
  | None => Some []
  | Some data =>
      match py_get data (py "events") (JArr []) with
      | None => None
      | Some evs =>
          match py_iter evs with
          | None => None
          | Some l => events_rows season_ wk l
          end
      end
  end.

Fixpoint weeks_rows (season_ : Z) (wks : list Z) : option (list EspnRow) :=
  match wks with
  | [] => Some []
  | wk :: rest =>
      match week_rows season_ wk with
      | None => None
      | Some rs =>
          match weeks_rows season_ rest with
          | None => None
          | Some rs' => Some (rs ++ rs')
          end
      end
  end.

(** [range(1, 19)] *)
Definition espn_weeks : list Z := map Z.of_nat (seq 1 18).

Definition _fetch_schedule_espn_full_season (season_ : Z) : option (Frame EspnRow) :=
  match weeks_rows season_ espn_weeks with
  | None => None
  | Some rs => Some (mkFrame schedule_columns rs)
  end.

Definition fetch_schedule_for_season_from_espn (season_ : Z) : option (Frame EspnRow) :=
  _fetch_schedule_espn_full_season season_.

End Espn.

(** A scoreboard payload in the shape ESPN serves: one event per game,
    [(date, home, away)]. *)
Definition espn_team (side abbr : pystr) : Json :=
  JObj [(py "homeAway", JStr side); (py "team", JObj [(py "abbreviation", JStr abbr)])].

Definition espn_event (g : Json * pystr * pystr) : Json :=
  let '(date, home, away) := g in
  JObj [(py "date", date);
        (py "competitions",
          JArr [JObj [(py "competitors",
                        JArr [espn_team (py "home") home; espn_team (py "away") away])]])].

Definition espn_payload (games : list (Json * pystr * pystr)) : Json :=
  JObj [(py "events", JArr (map espn_event games))].

(** ASCII upper-casing, an instance of [str.upper] on ASCII text. *)
Definition ascii_upper (s : pystr) : pystr :=
  map (fun c => if (97 <=? c)%Z && (c <=? 122)%Z then (c - 32)%Z else c) s.

(** A season with one game in week 3. *)
Definition sample_espn_games (w : Z) : list (Json * pystr * pystr) :=
  if Z.eqb w 3 then [(JStr (py "2025-09-21T17:00Z"), py "kc", py "nyg")] else [].

Definition sample_espn_fetch (s w : Z) : option Json := Some (espn_payload (sample_espn_games w)).

Definition fallback_sample_reader (y : Z) : option (Frame Play) :=
  if Z.eqb y 2024 then Some (mkFrame ["season"; "week"; "season_type"; "play_type"] sample_log)
  else None.

(** * Helper lemmas *)

Lemma Qlt_bool_iff (x y : Q) : Qlt_bool x y = true <-> x < y.
Proof.
  unfold Qlt_bool. rewrite negb_true_iff. split.
  - intros H. apply Qnot_le_lt. intros H'. apply Qle_bool_iff in H'. congruence.
  - intros H. destruct (Qle_bool y x) eqn:E; [|reflexivity].
    apply Qle_bool_iff in E. exfalso. apply (Qlt_not_le x y); assumption.
Qed.

Lemma Qlt_bool_false (x y : Q) : Qlt_bool x y = false <-> y <= x.
Proof.
  unfold Qlt_bool. rewrite negb_false_iff. apply Qle_bool_iff.
Qed.

Lemma np_clip_bounds (a : Q) : 2#10 <= np_clip a (2#10) 1 <= 1.
Proof.
  unfold np_clip. split.
  - apply Q.min_glb; [apply Q.le_max_r | discriminate].
  - apply Q.le_min_r.
Qed.

Lemma ttf_of_bounds (e : option Q) (s : Q) : 2#10 <= ttf_of e s <= 1.
Proof.
  destruct e as [e|]; simpl; [apply np_clip_bounds | split; discriminate].
Qed.

(** * Claims *)

(** ** C8 *)

(** C8: with a threshold [t >= 0], the net edge is [home - away] and is absent
    when either side is absent; the verdict is "Insufficient data" on an absent
    net, a win for the home side when [net > t], a win for the away side when
    [net < -t], and "Too close to call" otherwise, in particular at
    [net = t] and [net = -t]. *)
Theorem verdict_classification (home away : string) (he ae : option Q) (t : Q)
    (Ht : 0 <= t) :
  (net_edge he ae = None <-> he = None \/ ae = None) /\
  (forall h a, he = Some h -> ae = Some a -> net_edge he ae = Some (h - a)) /\
  verdict home away None t = InsufficientData /\
  (forall n, t < n -> verdict home away (Some n) t = ShouldWin home away) /\
  (forall n, n < - t -> verdict home away (Some n) t = ShouldWin away home) /\
  (forall n, - t <= n -> n <= t -> verdict home away (Some n) t = TooClose) /\
  verdict home away (Some t) t = TooClose /\
  verdict home away (Some (- t)) t = TooClose.
Proof.
  assert (Hnt : - t <= t).
  { apply Qle_trans with 0; [|exact Ht].
    apply Qopp_le_compat in Ht. exact Ht. }
  assert (Hclose : forall n, - t <= n -> n <= t -> verdict home away (Some n) t = TooClose).
  { intros n H1 H2. simpl.
    replace (Qlt_bool t n) with false by (symmetry; apply Qlt_bool_false; exact H2).
    replace (Qlt_bool n (- t)) with false by (symmetry; apply Qlt_bool_false; exact H1).
    reflexivity. }
  split; [|split; [|split; [|split; [|split; [|split; [|split]]]]]].
  - destruct he, ae; simpl; split; intros H; try discriminate; auto;
      destruct H; discriminate.
  - intros h a -> ->. reflexivity.
  - reflexivity.
  - intros n Hn. simpl. replace (Qlt_bool t n) with true
      by (symmetry; apply Qlt_bool_iff; exact Hn). reflexivity.
  - intros n Hn. simpl.
    replace (Qlt_bool t n) with false.
    + replace (Qlt_bool n (- t)) with true
        by (symmetry; apply Qlt_bool_iff; exact Hn). reflexivity.
    + symmetry. apply Qlt_bool_false. apply Qlt_le_weak.
      apply Qlt_le_trans with (- t); assumption.
  - exact Hclose.
  - apply Hclose; [exact Hnt | apply Qle_refl].
  - apply Hclose; [apply Qle_refl | exact Hnt].
Qed.

Lemma verdict_classification_witness :
  0 <= 3#20 /\ verdict "KC" "BAL" (Some (3#20)) (3#20) = TooClose.
Proof.
  split; [discriminate|].
  apply (verdict_classification "KC" "BAL" (Some 1) (Some (17#20)) (3#20)).
  discriminate.
Defined.

(** ** C6 *)

(** C6: the trench-to-finish factor is 1.0 when the OL edge is absent and
    [clip(0.6 + 0.4 * e * s, 0.2, 1.0)] otherwise, so it always lies in
    [[0.2, 1.0]], and it is 0.6 at [e = 0] for every [s]; the adjusted edges
    are the raw QB, WR and TE edges times the factor (absent stays absent)
    and the raw RB and OL edges unchanged. *)
Theorem ttf_boundary_and_scaling (o d : string) (off_map def_map : ScoreMap)
    (dep : Q) (w : UnitKey -> Q) (qc rr tc op : Q) :
  (forall s, ttf_of None s = 1) /\
  (forall e s, ttf_of (Some e) s = np_clip ((6#10) + (4#10) * e * s) (2#10) 1) /\
  (forall e s, 2#10 <= ttf_of e s <= 1) /\
  (forall s, ttf_of (Some 0) s == 6#10) /\
  (let '(_, raw, adj, ttf) := adjusted_team_edge o d off_map def_map dep w qc rr tc op in
   ttf = ttf_of (OL_edge raw) dep /\
   2#10 <= ttf <= 1 /\
   QB_edge adj = option_map (fun v => v * ttf) (QB_edge raw) /\
   WR_edge adj = option_map (fun v => v * ttf) (WR_edge raw) /\
   TE_edge adj = option_map (fun v => v * ttf) (TE_edge raw) /\
   RB_edge adj = RB_edge raw /\
   OL_edge adj = OL_edge raw).
Proof.
  split; [reflexivity|]. split; [reflexivity|]. split; [apply ttf_of_bounds|].
  split.
  - intros s. simpl. unfold np_clip.
    assert (H0 : (6#10) + (4#10) * 0 * s == 6#10) by ring.
    rewrite H0. rewrite Q.max_l by discriminate. rewrite Q.min_l by discriminate.
    reflexivity.
  - unfold adjusted_team_edge. simpl.
    repeat split; apply ttf_of_bounds.
Qed.

(** ** C7 *)

Lemma rollup_fold (w : UnitKey -> Q) (l : list (UnitKey * option Q)) (T W : Q) :
  let '(T', W') := fold_left (rollup_step Q 0 Qplus Qmult Qlt_bool w) l (T, W) in
  T' == T + weighted_sum w (qualifying_units w l) /\
  W' == W + weight_sum w (qualifying_units w l).
Proof.
  revert T W. induction l as [|[k [v|]] l IH]; intros T W; simpl.
  - unfold weighted_sum, weight_sum. simpl. split; ring.
  - destruct (Qlt_bool 0 (w k)) eqn:E.
    + specialize (IH (T + w k * v) (W + w k)).
      destruct (fold_left _ l _) as [T' W']. destruct IH as [H1 H2].
      unfold weighted_sum, weight_sum in *. simpl.
      rewrite H1, H2. split; ring.
    + apply IH.
  - apply IH.
Qed.

Lemma qualifying_units_pos (w : UnitKey -> Q) (l : list (UnitKey * option Q)) :
  qualifying_units w l <> [] -> 0 < weight_sum w (qualifying_units w l).
Proof.
  induction l as [|[k [v|]] l IH]; simpl; [congruence| |exact IH].
  destruct (Qlt_bool 0 (w k)) eqn:E; [|exact IH].
  intros _. apply Qlt_bool_iff in E. unfold weight_sum in *. simpl.
  destruct (qualifying_units w l) eqn:Eq.
  - simpl. rewrite Qplus_0_r. exact E.
  - apply Qlt_le_trans with (w k + 0).
    + rewrite Qplus_0_r. exact E.
    + apply Qplus_le_compat; [apply Qle_refl|].
      apply Qlt_le_weak. apply IH. discriminate.
Qed.

Lemma team_edge_Q_spec (w : UnitKey -> Q) (adj : Edges) :
  let q := qualifying_units w (items adj) in
  (q = [] -> team_edge_Q w adj = None) /\
  (q <> [] -> exists v, team_edge_Q w adj = Some v /\
                        v == weighted_sum w q / weight_sum w q).
Proof.
  intros q. unfold team_edge_Q, weighted_rollup.
  pose proof (rollup_fold w (items adj) 0 0) as HF.
  destruct (fold_left _ _ _) as [T W]. destruct HF as [HT HW].
  rewrite Qplus_0_l in HT, HW. fold q in HT, HW.
  split.
  - intros Hq. rewrite Hq in HW. unfold weight_sum in HW. simpl in HW.
    replace (Qlt_bool 0 W) with false; [reflexivity|].
    symmetry. apply Qlt_bool_false. rewrite HW. apply Qle_refl.
  - intros Hq. pose proof (qualifying_units_pos w (items adj) Hq) as Hpos. fold q in Hpos.
    replace (Qlt_bool 0 W) with true.
    + eexists; split; [reflexivity|]. rewrite HT, HW. reflexivity.
    + symmetry. apply Qlt_bool_iff. rewrite HW. exact Hpos.
Qed.

(** C7 (as amended): in exact arithmetic the team edge is the weighted mean
    over exactly the units with a present edge and a weight > 0, absent when
    there is none (in particular when all weights are 0), and equal to the
    unit's adjusted edge when exactly one unit qualifies. *)
Theorem weighted_rollup_law (w : UnitKey -> Q) (adj : Edges) :
  (qualifying_units w (items adj) = [] -> team_edge_Q w adj = None) /\
  (qualifying_units w (items adj) <> [] ->
     exists v, team_edge_Q w adj = Some v /\
       v == weighted_sum w (qualifying_units w (items adj)) /
            weight_sum w (qualifying_units w (items adj))) /\
  ((forall k, w k == 0) -> team_edge_Q w adj = None) /\
  (forall k v, qualifying_units w (items adj) = [(k, v)] ->
     exists x, team_edge_Q w adj = Some x /\ x == v).
Proof.
  destruct (team_edge_Q_spec w adj) as [H0 H1].
  split; [exact H0|]. split; [exact H1|]. split.
  - intros Hw. apply H0.
    destruct adj as [a b c d e]. unfold items, adj_items. simpl.
    destruct a, b, c, d, e; simpl;
      repeat match goal with
      | |- context [Qlt_bool 0 (w ?k)] =>
          replace (Qlt_bool 0 (w k)) with false
            by (symmetry; apply Qlt_bool_false; rewrite (Hw k); apply Qle_refl)
      end; reflexivity.
  - intros k v Hq. destruct (H1 ltac:(rewrite Hq; discriminate)) as [x [Hx Hv]].
    exists x. split; [exact Hx|]. rewrite Hv, Hq.
    assert (Hk : 0 < w k).
    { pose proof (qualifying_units_pos w (items adj)) as P. rewrite Hq in P.
      unfold weight_sum in P. simpl in P. rewrite Qplus_0_r in P.
      apply P. discriminate. }
    unfold weighted_sum, weight_sum. simpl. rewrite !Qplus_0_r.
    field. intros Hz. rewrite Hz in Hk. discriminate.
Qed.

(** The weights of the counterexample: RB at its default 0.7, the rest 0. *)
Definition rb_only_weights (k : UnitKey) : float :=
  match k with RB => 0.7%float | _ => 0%float end.

(** C7 counterexample: with Python floats, RB the only unit with a weight
    (0.7) and a present edge (0.1), the team edge is [0.7*0.1/0.7], which
    is 0.09999999999999999 and not the unit's edge 0.1. *)
Lemma weighted_rollup_float_inexact :
  team_edge_float rb_only_weights None (Some 0.1%float) None None None
    = Some 0.09999999999999999%float /\
  team_edge_float rb_only_weights None (Some 0.1%float) None None None
    <> Some 0.1%float.
Proof. vm_compute. split; [reflexivity | discriminate]. Qed.

(** ** C5 *)

(** C5: a key missing from a score map reads as absent; the WR edge is
    present exactly when both WR_off and CoverageDB_def are; the QB, RB, TE
    and OL edges are absent exactly when the offensive score is absent, and
    otherwise subtract each defensive term with an absent term counted as 0. *)
Theorem unit_edges_missing_data (o d : string) (off_map def_map : ScoreMap)
    (qc rr tc op : Q) :
  let E := unit_matchup o d off_map def_map qc rr tc op in
  (forall (m : ScoreMap) k, m !! k = None -> get m k = None) /\
  (WR_edge E <> None <->
     get off_map (o, "WR") <> None /\ get def_map (d, "CoverageDB") <> None) /\
  (forall x c, get off_map (o, "WR") = Some x -> get def_map (d, "CoverageDB") = Some c ->
     WR_edge E = Some (x - c)) /\
  (QB_edge E = None <-> get off_map (o, "QB") = None) /\
  (RB_edge E = None <-> get off_map (o, "RB") = None) /\
  (TE_edge E = None <-> get off_map (o, "TE") = None) /\
  (OL_edge E = None <-> get off_map (o, "OL") = None) /\
  (forall x, get off_map (o, "QB") = Some x -> QB_edge E =
     Some (x - contribution (get def_map (d, "CoverageDB")) qc
             - contribution (get def_map (d, "PassRush")) (1 - qc))) /\
  (forall x, get off_map (o, "RB") = Some x -> RB_edge E =
     Some (x - contribution (get def_map (d, "RunDefense")) rr
             - contribution (get def_map (d, "CoverageLB")) (1 - rr))) /\
  (forall x, get off_map (o, "TE") = Some x -> TE_edge E =
     Some (x - contribution (get def_map (d, "CoverageLB")) tc
             - contribution (get def_map (d, "CoverageDB")) (1 - tc))) /\
  (forall x, get off_map (o, "OL") = Some x -> OL_edge E =
     Some (x - contribution (get def_map (d, "PassRush")) op
             - contribution (get def_map (d, "RunDefense")) (1 - op))).
Proof.
  intros E. unfold E, unit_matchup. simpl.
  split; [intros m k Hk; unfold get; rewrite Hk; reflexivity|].
  split.
  { destruct (get off_map (o, "WR")), (get def_map (d, "CoverageDB"));
      split; intros H; try congruence; try (split; congruence); destruct H; congruence. }
  split; [intros x c -> ->; reflexivity|].
  repeat split;
    repeat match goal with
    | |- context [get ?m ?k] =>
        let v := fresh "v" in destruct (get m k) as [v|]
    end; simpl; try congruence; intros; try discriminate;
    repeat match goal with H : Some _ = Some _ |- _ => injection H as <- end;
    reflexivity.
Qed.

(** ** C4 *)

Lemma mean_present_spec (vals : list (option Q)) :
  mean_present vals = spec_unit_mean vals.
Proof.
  unfold mean_present, spec_unit_mean, np_mean.
  assert (Hd : forallb (fun v => negb (is_present v)) vals = true <-> dropna vals = []).
  { induction vals as [|[v|] vals IH]; simpl; [tauto| |exact IH].
    split; discriminate. }
  destruct (dropna vals) eqn:E.
  - replace (forallb _ vals) with true; [reflexivity|]. symmetry. apply Hd. reflexivity.
  - replace (forallb _ vals) with false; [reflexivity|].
    symmetry. apply not_true_iff_false. rewrite Hd. discriminate.
Qed.

(** C4: a unit score is the mean of the present normalized sub-metrics of
    the unit's source set and is absent (never 0) when they are all absent:
    OL uses pass/run block win, QB, RB, WR and TE use epa, success and
    explosive (the first conjunct gives the code's rule for every offense
    row); PassRush, RunDefense, CoverageDB/CoverageLB and DL use their sets,
    and any other defense unit name has an absent score. *)
Theorem unit_score_rule (r : OffNorm) (x : DefNorm) :
  offense_unit_score r =
    spec_unit_mean (if String.eqb (on_unit r) "OL" then [pbw_n r; rbw_n r]
                    else [epa_n r; succ_n r; expl_n r]) /\
  (In (on_unit r) ["QB"; "RB"; "WR"; "TE"] ->
     offense_unit_score r = spec_unit_mean [epa_n r; succ_n r; expl_n r]) /\
  (on_unit r = "OL" -> offense_unit_score r = spec_unit_mean [pbw_n r; rbw_n r]) /\
  (dn_unit x = "PassRush" -> defense_unit_score x = spec_unit_mean [pressure_n x]) /\
  (dn_unit x = "RunDefense" -> defense_unit_score x =
     spec_unit_mean [run_stop_win_n x; expl_allowed_n x; succ_allowed_n x]) /\
  (dn_unit x = "CoverageDB" \/ dn_unit x = "CoverageLB" -> defense_unit_score x =
     spec_unit_mean [coverage_n x; epa_allowed_n x; succ_allowed_n x; expl_allowed_n x]) /\
  (dn_unit x = "DL" -> defense_unit_score x = spec_unit_mean [run_stop_win_n x]) /\
  (~ In (dn_unit x) ["PassRush"; "RunDefense"; "CoverageDB"; "CoverageLB"; "DL"] ->
     defense_unit_score x = None) /\
  (forall vals, spec_unit_mean vals = None <-> Forall (fun v => v = None) vals).
Proof.
  unfold offense_unit_score, defense_unit_score.
  split; [apply mean_present_spec|].
  split.
  { intros H. rewrite mean_present_spec.
    simpl in H. destruct H as [<-|[<-|[<-|[<-|[]]]]]; reflexivity. }
  split; [intros ->; apply mean_present_spec|].
  split; [intros ->; apply mean_present_spec|].
  split; [intros ->; apply mean_present_spec|].
  split; [intros [-> | ->]; apply mean_present_spec|].
  split; [intros ->; apply mean_present_spec|].
  split.
  { intros H.
    destruct (String.eqb_spec (dn_unit x) "PassRush"); [exfalso; apply H; rewrite e; simpl; tauto|].
    destruct (String.eqb_spec (dn_unit x) "RunDefense"); [exfalso; apply H; rewrite e; simpl; tauto|].
    destruct (String.eqb_spec (dn_unit x) "CoverageDB"); [exfalso; apply H; rewrite e; simpl; tauto|].
    destruct (String.eqb_spec (dn_unit x) "CoverageLB"); [exfalso; apply H; rewrite e; simpl; tauto|].
    destruct (String.eqb_spec (dn_unit x) "DL"); [exfalso; apply H; rewrite e; simpl; tauto|].
    reflexivity. }
  intros vals. unfold spec_unit_mean. rewrite List.Forall_forall.
  destruct (forallb _ vals) eqn:E.
  - rewrite forallb_forall in E. split; [|reflexivity]. intros _ v Hv.
    specialize (E v Hv). destruct v; [discriminate | reflexivity].
  - split; [discriminate|]. intros H. exfalso.
    apply not_true_iff_false in E. apply E. apply forallb_forall.
    intros v Hv. rewrite (H v Hv). reflexivity.
Qed.


(** ** C3 *)

Lemma in_dropna (s : list (option Q)) (x : Q) : In x (dropna s) <-> In (Some x) s.
Proof.
  induction s as [|[v|] s IH]; simpl; [tauto| |].
  - rewrite IH. split; intros [H|H]; auto; left; congruence.
  - rewrite IH. split; [auto|]. intros [H|H]; [discriminate | exact H].
Qed.

Lemma nunique_zero (l : list Q) : nunique l = 0%nat -> l = [].
Proof.
  induction l as [|a l IH]; simpl; [reflexivity|].
  destruct (existsb (Qeq_bool a) l) eqn:E; [|discriminate].
  intros H. specialize (IH H). subst l. discriminate.
Qed.

Lemma nunique_le1_all_eq (l : list Q) :
  (nunique l <= 1)%nat -> forall x y, In x l -> In y l -> x == y.
Proof.
  induction l as [|a l IH]; simpl; [intros _ x y []|].
  destruct (existsb (Qeq_bool a) l) eqn:E; intros H.
  - specialize (IH H). apply existsb_exists in E. destruct E as [b [Hb Hab]].
    apply Qeq_bool_eq in Hab.
    assert (Ha : forall y, In y l -> a == y)
      by (intros y Hy; rewrite Hab; apply IH; assumption).
    intros x y [<-|Hx] [<-|Hy].
    + reflexivity.
    + apply Ha; exact Hy.
    + symmetry; apply Ha; exact Hx.
    + apply IH; assumption.
  - assert (nunique l = 0%nat) as H0 by lia. apply nunique_zero in H0. subst l.
    intros x y [<-|[]] [<-|[]]. reflexivity.
Qed.

Lemma all_eq_nunique_le1 (l : list Q) :
  (forall x y, In x l -> In y l -> x == y) -> (nunique l <= 1)%nat.
Proof.
  induction l as [|a l IH]; simpl; intros H; [lia|].
  destruct l as [|b l'].
  - simpl. lia.
  - replace (existsb (Qeq_bool a) (b :: l')) with true.
    + apply IH. intros x y Hx Hy. apply H; right; assumption.
    + symmetry. simpl. apply orb_true_iff. left.
      apply Qeq_bool_iff. apply H; simpl; auto.
Qed.

Lemma fold_min_spec (l : list Q) :
  l <> [] ->
  exists m, fold_right (fun x acc => match acc with None => Some x | Some m => Some (Qmin x m) end)
              None l = Some m /\ In m l /\ forall y, In y l -> m <= y.
Proof.
  induction l as [|a l IH]; [congruence|]. intros _. simpl.
  destruct l as [|b l'].
  - exists a. simpl. split; [reflexivity|]. split; [left; reflexivity|].
    intros y [<-|[]]. apply Qle_refl.
  - destruct (IH ltac:(discriminate)) as [m [Hm [Hin Hle]]]. rewrite Hm.
    exists (Qmin a m). split; [reflexivity|]. split.
    + unfold Qmin, GenericMinMax.gmin. destruct (a ?= m); [left|left|right]; auto.
    + intros y [<-|Hy]; [apply Q.le_min_l|].
      apply Qle_trans with m; [apply Q.le_min_r | apply Hle; exact Hy].
Qed.

Lemma fold_max_spec (l : list Q) :
  l <> [] ->
  exists m, fold_right (fun x acc => match acc with None => Some x | Some m => Some (Qmax x m) end)
              None l = Some m /\ In m l /\ forall y, In y l -> y <= m.
Proof.
  induction l as [|a l IH]; [congruence|]. intros _. simpl.
  destruct l as [|b l'].
  - exists a. simpl. split; [reflexivity|]. split; [left; reflexivity|].
    intros y [<-|[]]. apply Qle_refl.
  - destruct (IH ltac:(discriminate)) as [m [Hm [Hin Hle]]]. rewrite Hm.
    exists (Qmax a m). split; [reflexivity|]. split.
    + unfold Qmax, GenericMinMax.gmax. destruct (a ?= m); [left|right|left]; auto.
    + intros y [<-|Hy]; [apply Q.le_max_l|].
      apply Qle_trans with m; [apply Hle; exact Hy | apply Q.le_max_r].
Qed.

Lemma rescale_unit (x mn mx : Q) :
  mn < mx -> mn <= x -> x <= mx -> 0 <= (x - mn) / (mx - mn) <= 1.
Proof.
  intros Hlt H1 H2.
  assert (Hp : 0 < mx - mn) by (apply Qlt_minus_iff in Hlt; exact Hlt).
  split.
  - apply Qle_shift_div_l; [exact Hp|]. rewrite Qmult_0_l.
    apply Qle_minus_iff in H1. exact H1.
  - apply Qle_shift_div_r; [exact Hp|]. rewrite Qmult_1_l.
    apply Qplus_le_compat; [exact H2 | apply Qle_refl].
Qed.

(** C3: a column with zero or one distinct present value normalizes to 0.5
    everywhere; otherwise each present value [x] becomes
    [(x - min) / (max - min)], which lies in [[0, 1]], with [min] and [max]
    the least and greatest present values, and absent values stay absent;
    [invert = true] gives 1 minus the [invert = false] output at every present
    position. *)
Theorem normalize_law (s : list (option Q)) :
  ((forall x y, In x (dropna s) -> In y (dropna s) -> x == y) ->
     normalize s false = map (fun _ => Some (1#2)) s) /\
  ((exists x y, In x (dropna s) /\ In y (dropna s) /\ ~ x == y) ->
     exists mn mx,
       In mn (dropna s) /\ In mx (dropna s) /\ mn < mx /\
       (forall y, In y (dropna s) -> mn <= y <= mx) /\
       normalize s false = map (option_map (fun x => (x - mn) / (mx - mn))) s /\
       (forall i, nth_error s i = Some None -> nth_error (normalize s false) i = Some None) /\
       (forall v, In (Some v) (normalize s false) -> 0 <= v <= 1)) /\
  normalize s true = map (option_map (fun y => 1 - y)) (normalize s false).
Proof.
  split; [|split].
  - intros H. unfold normalize.
    apply all_eq_nunique_le1 in H. apply Nat.leb_le in H. rewrite H. reflexivity.
  - intros (x & y & Hx & Hy & Hxy).
    assert (Hn : Nat.leb (nunique (dropna s)) 1 = false).
    { apply Nat.leb_gt. destruct (Nat.le_gt_cases (nunique (dropna s)) 1) as [H|H]; [|exact H].
      exfalso. apply Hxy. apply (nunique_le1_all_eq _ H); assumption. }
    assert (Hne : dropna s <> []) by (intros E; rewrite E in Hx; destruct Hx).
    destruct (fold_min_spec _ Hne) as [mn [Hmn [Hinmn Hlemn]]].
    destruct (fold_max_spec _ Hne) as [mx [Hmx [Hinmx Hlemx]]].
    assert (Hlt : mn < mx).
    { apply Qnot_le_lt. intros Hle. apply Hxy.
      assert (Heq : forall z, In z (dropna s) -> z == mn).
      { intros z Hz. apply Qle_antisym; [|apply Hlemn; exact Hz].
        apply Qle_trans with mx; [apply Hlemx; exact Hz | exact Hle]. }
      rewrite (Heq x Hx), (Heq y Hy). reflexivity. }
    assert (Hout : normalize s false = map (option_map (fun x => (x - mn) / (mx - mn))) s).
    { unfold normalize, series_min, series_max. rewrite Hn, Hmn, Hmx.
      replace (Qeq_bool mx mn) with false; [reflexivity|].
      symmetry. apply not_true_iff_false. intros E. apply Qeq_bool_eq in E.
      rewrite E in Hlt. apply (Qlt_irrefl mn). exact Hlt. }
    exists mn, mx. split; [exact Hinmn|]. split; [exact Hinmx|]. split; [exact Hlt|].
    split; [intros z Hz; split; [apply Hlemn | apply Hlemx]; exact Hz|].
    split; [exact Hout|]. split.
    + intros i Hi. rewrite Hout, nth_error_map, Hi. reflexivity.
    + intros v Hv. rewrite Hout in Hv. apply in_map_iff in Hv.
      destruct Hv as [[z|] [Ez Hz]]; [|discriminate].
      injection Ez as <-. apply in_dropna in Hz.
      apply rescale_unit; [exact Hlt | apply Hlemn | apply Hlemx]; exact Hz.
  - reflexivity.
Qed.

(** ** C9 *)

Lemma unit_matchup_ext (o o' d d' : string) (off_map def_map : ScoreMap) (qc rr tc op : Q) :
  (forall u, In u offense_unit_names -> get off_map (o, u) = get off_map (o', u)) ->
  (forall u, In u defense_unit_names -> get def_map (d, u) = get def_map (d', u)) ->
  unit_matchup o d off_map def_map qc rr tc op = unit_matchup o' d' off_map def_map qc rr tc op.
Proof.
  intros Ho Hd. unfold unit_matchup.
  rewrite (Ho "QB"), (Ho "RB"), (Ho "WR"), (Ho "TE"), (Ho "OL") by (simpl; tauto).
  rewrite (Hd "PassRush"), (Hd "RunDefense"), (Hd "CoverageDB"), (Hd "CoverageLB")
    by (simpl; tauto).
  reflexivity.
Qed.

(** C9 (as amended): when two teams have the same offensive and the same
    defensive unit scores, each side's raw edges, adjusted edges, factor and
    team edge coincide, so the net edge is 0 and the verdict is "Too close to
    call" for every threshold [>= 0]; when the team edge is absent the verdict
    is "Insufficient data".  The raw edges themselves need not be 0. *)
Theorem identical_teams_tie (cfg : GameConfig) (A B : string) (off_map def_map : ScoreMap)
    (Hoff : forall u, In u offense_unit_names -> get off_map (A, u) = get off_map (B, u))
    (Hdef : forall u, In u defense_unit_names -> get def_map (A, u) = get def_map (B, u))
    (Ht : 0 <= close_margin cfg) :
  side_edge cfg A B off_map def_map = side_edge cfg B A off_map def_map /\
  (forall e raw adj ttf, side_edge cfg A B off_map def_map = (Some e, raw, adj, ttf) ->
     exists n, game_verdict cfg A B off_map def_map = (Some n, TooClose) /\ n == 0) /\
  (forall raw adj ttf, side_edge cfg A B off_map def_map = (None, raw, adj, ttf) ->
     game_verdict cfg A B off_map def_map = (None, InsufficientData)).
Proof.
  assert (Hsame : side_edge cfg A B off_map def_map = side_edge cfg B A off_map def_map).
  { unfold side_edge, adjusted_team_edge.
    rewrite (unit_matchup_ext A B B A); [reflexivity | exact Hoff |].
    intros u Hu. symmetry. apply Hdef. exact Hu. }
  split; [exact Hsame|]. split.
  - intros e raw adj ttf He. unfold game_verdict.
    rewrite <- Hsame, He. simpl.
    assert (E0 : e - e == 0) by ring.
    exists (e - e). split.
    + f_equal. unfold verdict.
      replace (Qlt_bool (close_margin cfg) (e - e)) with false.
      * replace (Qlt_bool (e - e) (- close_margin cfg)) with false; [reflexivity|].
        symmetry. apply Qlt_bool_false.
        rewrite E0. apply Qopp_le_compat in Ht. exact Ht.
      * symmetry. apply Qlt_bool_false. rewrite E0. exact Ht.
    + exact E0.
  - intros raw adj ttf He. unfold game_verdict.
    rewrite <- Hsame, He. reflexivity.
Qed.

Lemma identical_teams_tie_witness :
  (forall u, In u offense_unit_names -> get twin_off_map ("KC", u) = get twin_off_map ("BAL", u)) /\
  (forall u, In u defense_unit_names -> get twin_def_map ("KC", u) = get twin_def_map ("BAL", u)) /\
  0 <= close_margin default_config /\
  side_edge default_config "KC" "BAL" twin_off_map twin_def_map
    = side_edge default_config "BAL" "KC" twin_off_map twin_def_map.
Proof.
  assert (Ho : forall u, In u offense_unit_names ->
            get twin_off_map ("KC", u) = get twin_off_map ("BAL", u)).
  { intros u Hu. destruct Hu as [<-|[<-|[<-|[<-|[<-|[]]]]]]; vm_compute; reflexivity. }
  assert (Hd : forall u, In u defense_unit_names ->
            get twin_def_map ("KC", u) = get twin_def_map ("BAL", u)).
  { intros u Hu. destruct Hu as [<-|[<-|[<-|[<-|[<-|[]]]]]]; vm_compute; reflexivity. }
  assert (Hm : 0 <= close_margin default_config) by discriminate.
  split; [exact Ho|]. split; [exact Hd|]. split; [exact Hm|].
  apply (identical_teams_tie default_config "KC" "BAL" twin_off_map twin_def_map Ho Hd Hm).
Defined.

(** C9 counterexample: KC and BAL have identical unit scores (offense 1.0,
    defense 0.0), yet KC's raw QB edge against BAL is 1, not 0, and its
    trench-to-finish factor is 1.0, not 0.6. *)
Lemma identical_teams_raw_edges_nonzero :
  get twin_off_map ("KC", "QB") = get twin_off_map ("BAL", "QB") /\
  get twin_def_map ("KC", "CoverageDB") = get twin_def_map ("BAL", "CoverageDB") /\
  (let '(_, raw, _, ttf) := side_edge default_config "KC" "BAL" twin_off_map twin_def_map in
   (exists e, QB_edge raw = Some e /\ e == 1 /\ ~ e == 0) /\ ttf == 1 /\ ~ ttf == 6#10).
Proof.
  split; [vm_compute; reflexivity|]. split; [vm_compute; reflexivity|].
  vm_compute. split; [|split; [reflexivity | discriminate]].
  eexists. split; [reflexivity|]. split; [reflexivity | discriminate].
Qed.

(** ** Lemmas on the pandas building blocks *)

Lemma insert_key_in (t k : string) (ks : list string) :
  In t (insert_key k ks) <-> t = k \/ In t ks.
Proof.
  induction ks as [|k' ks IH]; simpl; [intuition congruence|].
  destruct (String.eqb_spec k k') as [->|Hne].
  - simpl. intuition congruence.
  - destruct (String.ltb k k'); simpl; [intuition congruence|].
    rewrite IH. intuition congruence.
Qed.

Lemma group_keys_in {R} (key : R -> option string) (t : string) (l : list R) :
  In t (group_keys key l) <-> exists r, In r l /\ key r = Some t.
Proof.
  induction l as [|r l IH]; simpl.
  - split; [intros []|intros (x & [] & _)].
  - destruct (key r) as [k|] eqn:Ek.
    + rewrite insert_key_in, IH. split.
      * intros [->|(x & Hx & Kx)]; [exists r; auto | exists x; auto].
      * intros (x & [<-|Hx] & Kx); [left; congruence | right; exists x; auto].
    + rewrite IH. split.
      * intros (x & Hx & Kx). exists x. auto.
      * intros (x & [<-|Hx] & Kx); [congruence | exists x; auto].
Qed.

Lemma group_rows_nonempty {R} (key : R -> option string) (t : string) (l : list R) :
  group_rows key t l <> [] <-> In t (group_keys key l).
Proof.
  rewrite group_keys_in. unfold group_rows. split.
  - intros H. destruct (List.filter (key_is key t) l) as [|x xs] eqn:E; [congruence|].
    assert (Hx : In x (List.filter (key_is key t) l)) by (rewrite E; left; reflexivity).
    apply filter_In in Hx. destruct Hx as [Hx Kx]. exists x. split; [exact Hx|].
    unfold key_is in Kx. destruct (key x); [|discriminate].
    apply String.eqb_eq in Kx. congruence.
  - intros (x & Hx & Kx) E.
    assert (Hin : In x (List.filter (key_is key t) l))
      by (apply filter_In; split; [exact Hx | unfold key_is; rewrite Kx; apply String.eqb_refl]).
    rewrite E in Hin. destruct Hin.
Qed.

Lemma assoc_map {A} (f : string -> A) (t : string) (ks : list string) :
  assoc t (map (fun k => (k, f k)) ks) = if in_dec string_dec t ks then Some (f t) else None.
Proof.
  unfold assoc. induction ks as [|k ks IH]; simpl; [reflexivity|].
  destruct (String.eqb_spec k t) as [->|Hne].
  - destruct (string_dec t t); [reflexivity | congruence].
  - rewrite IH. destruct (in_dec string_dec t ks), (string_dec k t); try congruence;
      try reflexivity; exfalso; tauto.
Qed.

(** A groupby table read at a team: the aggregate of that team's rows. *)
Lemma assoc_groupby {R A} (key : R -> option string) (agg : list R -> A) (t : string) (l : list R) :
  assoc t (groupby_agg key agg l) =
    match group_rows key t l with [] => None | _ => Some (agg (group_rows key t l)) end.
Proof.
  unfold groupby_agg. rewrite assoc_map. cbv beta.
  destruct (in_dec string_dec t (group_keys key l)) as [H|H];
    rewrite <- group_rows_nonempty in H.
  - destruct (group_rows key t l) eqn:E; [congruence | reflexivity].
  - destruct (group_rows key t l) eqn:E; [reflexivity | exfalso; apply H; discriminate].
Qed.

Lemma assoc_groupby_some {R A} (key : R -> option string) (agg : list R -> A)
    (t : string) (l : list R) (v : A) :
  assoc t (groupby_agg key agg l) = Some v -> v = agg (group_rows key t l).
Proof.
  rewrite assoc_groupby. destruct (group_rows key t l); [discriminate|].
  intros H. injection H as <-. reflexivity.
Qed.

Lemma group_rows_incl {R} (key : R -> option string) (t : string) (l : list R) (x : R) :
  In x (group_rows key t l) -> In x l.
Proof. unfold group_rows. intros H. apply filter_In in H. tauto. Qed.

Lemma filter_map_comm {A B} (f : B -> bool) (g : A -> B) (l : list A) :
  List.filter f (map g l) = map g (List.filter (fun x => f (g x)) l).
Proof. induction l as [|a l IH]; simpl; [reflexivity|]. destruct (f (g a)); simpl; congruence. Qed.

Lemma filter_filter_and {A} (f g : A -> bool) (l : list A) :
  List.filter f (List.filter g l) = List.filter (fun x => g x && f x) l.
Proof.
  induction l as [|a l IH]; simpl; [reflexivity|].
  destruct (g a); simpl; destruct (f a); simpl; congruence.
Qed.

Lemma spec_kept_split (s w : Z) (p : Play) :
  spec_kept s w p = keep_season_week s w p && keep_play p.
Proof.
  unfold spec_kept, keep_season_week, keep_play, is_present. simpl.
  rewrite orb_false_r. rewrite !andb_assoc. reflexivity.
Qed.

Lemma filtered_spec (pbp : list Play) (s w : Z) :
  filtered pbp s w = map derive (List.filter (spec_kept s w) pbp).
Proof.
  unfold filtered. rewrite filter_filter_and. f_equal.
  apply filter_ext. intros p. symmetry. apply spec_kept_split.
Qed.

Lemma filtered_in (pbp : list Play) (s w : Z) (d : DPlay) :
  In d (filtered pbp s w) -> In (dp d) pbp.
Proof.
  rewrite filtered_spec. intros H. apply in_map_iff in H.
  destruct H as (p & <- & Hp). apply filter_In in Hp. simpl. tauto.
Qed.

(** ** C1 *)

(** C1 (code defect): when no play survives the aggregation filter, both
    tables come back with no columns at all (they are built from empty lists
    of dicts), and the very next step, [unitize_offense] or
    [unitize_defense], raises [KeyError]. *)
Theorem empty_log_columnless_tables (pbp : list Play) (s w : Z)
    (Hempty : List.filter (spec_kept s w) pbp = []) :
  compute_team_unit_metrics pbp s w = (mkFrame [] [], mkFrame [] []) /\
  columns (fst (compute_team_unit_metrics pbp s w)) <> offense_columns /\
  columns (snd (compute_team_unit_metrics pbp s w)) <> defense_columns /\
  unitize_offense (fst (compute_team_unit_metrics pbp s w)) = Raise (KeyError "epa_per_play") /\
  unitize_defense (snd (compute_team_unit_metrics pbp s w)) = Raise (KeyError "epa_allowed").
Proof.
  assert (H : compute_team_unit_metrics pbp s w = (mkFrame [] [], mkFrame [] [])).
  { unfold compute_team_unit_metrics. rewrite filtered_spec, Hempty. reflexivity. }
  rewrite H. repeat split; try discriminate; reflexivity.
Qed.

(** The failing input: scenario B, an empty play log for season 2099. *)
Lemma empty_log_columnless_tables_witness :
  List.filter (spec_kept 2099 3) [] = [] /\
  unitize_offense (fst (compute_team_unit_metrics [] 2099 3)) = Raise (KeyError "epa_per_play").
Proof.
  split; [reflexivity|].
  apply (empty_log_columnless_tables [] 2099 3). reflexivity.
Defined.

(** ** C10 *)

Lemma ratio_unit (a n : Z) : (0 <= a <= n)%Z -> 0 <= ratio a n <= 1.
Proof.
  intros [H0 H1]. unfold ratio.
  assert (Hm : 0 < inject_Z (Z.max n 1)).
  { change 0 with (inject_Z 0). rewrite <- Zlt_Qlt. lia. }
  split.
  - apply Qle_shift_div_l; [exact Hm|]. rewrite Qmult_0_l.
    change 0 with (inject_Z 0). rewrite <- Zle_Qle. exact H0.
  - apply Qle_shift_div_r; [exact Hm|]. rewrite Qmult_1_l.
    rewrite <- Zle_Qle. lia.
Qed.

Lemma one_minus_unit (x : Q) : 0 <= x <= 1 -> 0 <= 1 - x <= 1.
Proof.
  intros [H0 H1]. split.
  - apply Qle_minus_iff in H1. exact H1.
  - apply Qle_minus_iff. assert (E : 1 + - (1 - x) == x) by ring. rewrite E. exact H0.
Qed.

Lemma sum_Z_bounds {R} (f : R -> Z) (l : list R) :
  (forall x, In x l -> (0 <= f x <= 1)%Z) -> (0 <= sum_Z f l <= count l)%Z.
Proof.
  unfold count. induction l as [|a l IH]; simpl; intros H; [lia|].
  assert (Ha := H a (or_introl eq_refl)).
  assert (Hl : (0 <= sum_Z f l <= Z.of_nat (length l))%Z)
    by (apply IH; intros x Hx; apply H; right; exact Hx).
  lia.
Qed.

Lemma stuffed_01 (d : DPlay) : (0 <= stuffed d <= 1)%Z.
Proof. unfold stuffed. destruct (Qle_bool _ _); lia. Qed.

(** The four proxies of a team, read from their groupby tables. *)
Lemma proxy_tables_unit (df : list DPlay) (t : string) (v : Q)
    (Hs : forall d, In d df -> (0 <= sack_filled d <= 1)%Z) :
  (assoc t (ol_pass df) = Some v -> 0 <= v <= 1) /\
  (assoc t (ol_run df) = Some v -> 0 <= v <= 1) /\
  (assoc t (def_pass df) = Some v -> 0 <= v <= 1) /\
  (assoc t (def_run df) = Some v -> 0 <= v <= 1).
Proof.
  unfold ol_pass, ol_run, def_pass, def_run.
  split; [|split; [|split]]; intros Hv; apply assoc_groupby_some in Hv; subst v; cbv beta;
    try apply one_minus_unit; apply ratio_unit; apply sum_Z_bounds;
    intros x Hx; apply group_rows_incl in Hx;
    unfold pass_df, run_df in Hx; apply filter_In in Hx;
    first [apply stuffed_01 | apply Hs; tauto].
Qed.

Lemma in_merge_outer {A B} (a : list (string * A)) (b : list (string * B)) x :
  In x (merge_outer a b) -> exists t, x = (t, (assoc t a, assoc t b)).
Proof.
  unfold merge_outer. intros H. apply in_map_iff in H.
  destruct H as [t [<- _]]. exists t. reflexivity.
Qed.

Lemma in_merge_left {A B} (a : list (string * A)) (b : list (string * B)) x :
  In x (merge_left a b) -> exists y, In (fst x, y) a /\ snd x = (y, assoc (fst x) b).
Proof.
  unfold merge_left. intros H. apply in_map_iff in H.
  destruct H as [[t y] [<- Hy]]. exists y. simpl. auto.
Qed.

Lemma offense_rows_shape (pbp : list Play) (s w : Z) (r : OffenseUnitMetric) :
  In r (rows (fst (compute_team_unit_metrics pbp s w))) ->
  (pass_block_win r = None /\ run_block_win r = None) \/
  (o_unit r = "OL" /\
   pass_block_win r = assoc (o_team r) (ol_pass (filtered pbp s w)) /\
   run_block_win r = assoc (o_team r) (ol_run (filtered pbp s w))).
Proof.
  unfold compute_team_unit_metrics, DataFrame_of_dicts. simpl.
  intros H. apply in_app_or in H. destruct H as [H|H].
  - left. apply in_flat_map in H. destruct H as [[t [[e su] x]] [_ H]].
    simpl in H. destruct H as [<-|[<-|[<-|[<-|[]]]]]; auto.
  - right. apply in_map_iff in H. destruct H as [x [<- Hx]].
    apply in_merge_outer in Hx. destruct Hx as [t ->]. simpl. auto.
Qed.

Lemma defense_rows_shape (pbp : list Play) (s w : Z) (r : DefenseUnitMetric) :
  In r (rows (snd (compute_team_unit_metrics pbp s w))) ->
  (pressure_rate r = None \/ pressure_rate r = assoc (d_team r) (def_pass (filtered pbp s w))) /\
  (run_stop_win r = None \/ run_stop_win r = assoc (d_team r) (def_run (filtered pbp s w))).
Proof.
  unfold compute_team_unit_metrics, DataFrame_of_dicts. simpl.
  intros H. apply in_flat_map in H. destruct H as [x [Hx Hr]].
  apply in_merge_left in Hx. destruct Hx as [y [Hy Ex]].
  apply in_merge_left in Hy. destruct Hy as [z [_ Ey]].
  destruct x as [t x]. simpl in Ex, Ey. subst x. simpl in Ey.
  destruct y as [rt pr]. injection Ey as -> ->. destruct z as [[e su] xp].
  simpl in Hr. destruct Hr as [<-|[<-|[<-|[<-|[<-|[]]]]]]; simpl; auto.
Qed.

(** C10: when every play's sack indicator is 0, 1 or absent, every present
    raw proxy of the tables (pass block win, run block win, pressure rate,
    run stop win) lies in [[0, 1]]. *)
Theorem raw_proxies_in_unit_interval (pbp : list Play) (s w : Z)
    (Hsack : forall p, In p pbp -> sack p = None \/ sack p = Some 0%Z \/ sack p = Some 1%Z) :
  (forall r v, In r (rows (fst (compute_team_unit_metrics pbp s w))) ->
     pass_block_win r = Some v \/ run_block_win r = Some v -> 0 <= v <= 1) /\
  (forall r v, In r (rows (snd (compute_team_unit_metrics pbp s w))) ->
     pressure_rate r = Some v \/ run_stop_win r = Some v -> 0 <= v <= 1).
Proof.
  assert (Hs : forall d, In d (filtered pbp s w) -> (0 <= sack_filled d <= 1)%Z).
  { intros d Hd. apply filtered_in in Hd. unfold sack_filled.
    destruct (Hsack _ Hd) as [E|[E|E]]; rewrite E; lia. }
  split.
  - intros r v Hr Hv. apply offense_rows_shape in Hr.
    destruct Hr as [[E1 E2]|(_ & E1 & E2)]; [destruct Hv; congruence|].
    destruct (proxy_tables_unit _ (o_team r) v Hs) as (P1 & P2 & _).
    destruct Hv as [Hv|Hv]; [apply P1 | apply P2]; congruence.
  - intros r v Hr Hv. apply defense_rows_shape in Hr.
    destruct Hr as [E1 E2].
    destruct (proxy_tables_unit _ (d_team r) v Hs) as (_ & _ & P3 & P4).
    destruct Hv as [Hv|Hv].
    + destruct E1 as [E1|E1]; [congruence|]. apply P3. congruence.
    + destruct E2 as [E2|E2]; [congruence|]. apply P4. congruence.
Qed.

Lemma raw_proxies_in_unit_interval_witness :
  (forall p, In p sample_log -> sack p = None \/ sack p = Some 0%Z \/ sack p = Some 1%Z) /\
  (forall r v, In r (rows (fst (compute_team_unit_metrics sample_log 2024 3))) ->
     pass_block_win r = Some v \/ run_block_win r = Some v -> 0 <= v <= 1).
Proof.
  assert (H : forall p, In p sample_log -> sack p = None \/ sack p = Some 0%Z \/ sack p = Some 1%Z).
  { intros p Hp. destruct Hp as [<-|[<-|[<-|[<-|[]]]]]; simpl; auto. }
  split; [exact H|].
  apply (raw_proxies_in_unit_interval sample_log 2024 3 H).
Defined.

(** ** C2 *)

Lemma group_filter_spec (pbp : list Play) (s w : Z) (t : string) (f : Play -> bool) :
  group_rows off_key t (List.filter (fun d => f (dp d)) (filtered pbp s w)) =
  map derive (List.filter f (spec_team_plays pbp s w t)).
Proof.
  unfold group_rows, spec_team_plays. rewrite filtered_spec, !filter_map_comm.
  rewrite !filter_filter_and. f_equal. apply filter_ext. intros p.
  unfold key_is, off_key. simpl.
  destruct (spec_kept s w p), (f p), (posteam p); simpl;
    rewrite ?andb_true_r, ?andb_false_r; reflexivity.
Qed.

Lemma group_all_spec (pbp : list Play) (s w : Z) (t : string) :
  group_rows off_key t (filtered pbp s w) = map derive (spec_team_plays pbp s w t).
Proof.
  rewrite <- (filter_true (spec_team_plays pbp s w t)).
  rewrite <- group_filter_spec. f_equal. symmetry. apply filter_true.
Qed.

Lemma sum_Z_indicator {R} (b : R -> bool) (l : list R) :
  sum_Z (fun x => if b x then 1%Z else 0%Z) l = Z.of_nat (length (List.filter b l)).
Proof.
  induction l as [|a l IH]; simpl; [reflexivity|].
  rewrite IH. destruct (b a); simpl; lia.
Qed.

Lemma sum_Z_map {R T} (f : T -> Z) (g : R -> T) (l : list R) :
  sum_Z f (map g l) = sum_Z (fun x => f (g x)) l.
Proof. induction l as [|a l IH]; simpl; [reflexivity|]. unfold sum_Z in *. simpl. rewrite IH. reflexivity. Qed.

Lemma sumQ_indicator {R} (b : R -> bool) (l : list R) :
  sumQ (map (fun x => inject_Z (if b x then 1%Z else 0%Z)) l) ==
  inject_Z (Z.of_nat (length (List.filter b l))).
Proof.
  rewrite <- sum_Z_indicator. induction l as [|a l IH]; simpl; [reflexivity|].
  rewrite IH, inject_Z_plus. reflexivity.
Qed.

Lemma dropna_some {R} (h : R -> Q) (l : list R) :
  dropna (map (fun x => Some (h x)) l) = map h l.
Proof. induction l as [|a l IH]; simpl; congruence. Qed.

Lemma derive_explosive (p : Play) :
  explosive (derive p) = if spec_explosive p then 1%Z else 0%Z.
Proof.
  unfold derive, spec_explosive, ge_opt. simpl.
  destruct (String.eqb (play_type p) "pass" && _); reflexivity.
Qed.

Lemma rate_share (f : Play -> bool) (h : DPlay -> Z) (ps : list Play) :
  ps <> [] ->
  (forall p, h (derive p) = if f p then 1%Z else 0%Z) ->
  exists x, skipna_mean (map (fun d => Some (inject_Z (h d))) (map derive ps)) = Some x /\
            x == share f ps.
Proof.
  intros Hne Hh. unfold skipna_mean, share.
  rewrite (dropna_some (fun d => inject_Z (h d))), !map_map.
  rewrite (map_ext _ (fun x => inject_Z (if f x then 1%Z else 0%Z))) by (intros; rewrite Hh; reflexivity).
  destruct (map _ ps) as [|q qs] eqn:E.
  - apply map_eq_nil in E. contradiction.
  - eexists. split; [reflexivity|]. rewrite <- E.
    rewrite sumQ_indicator, length_map. reflexivity.
Qed.

Lemma offense_rows_cases (pbp : list Play) (s w : Z) (r : OffenseUnitMetric) :
  In r (rows (fst (compute_team_unit_metrics pbp s w))) ->
  (In (o_unit r) ["QB"; "RB"; "WR"; "TE"] /\
   In (o_team r) (group_keys off_key (filtered pbp s w)) /\
   (epa_per_play r, success_rate r, explosive_rate r) =
     rates (group_rows off_key (o_team r) (filtered pbp s w))) \/
  (o_unit r = "OL" /\
   pass_block_win r = assoc (o_team r) (ol_pass (filtered pbp s w)) /\
   run_block_win r = assoc (o_team r) (ol_run (filtered pbp s w))).
Proof.
  unfold compute_team_unit_metrics, DataFrame_of_dicts. simpl.
  intros H. apply in_app_or in H. destruct H as [H|H].
  - left. apply in_flat_map in H. destruct H as [x [Hx H]].
    unfold groupby_agg in Hx. apply in_map_iff in Hx. destruct Hx as [t [<- Ht]].
    simpl in H. destruct H as [<-|[<-|[<-|[<-|[]]]]]; simpl;
      (split; [tauto | split; [exact Ht | reflexivity]]).
  - right. apply in_map_iff in H. destruct H as [x [<- Hx]].
    apply in_merge_outer in Hx. destruct Hx as [t ->]. simpl. auto.
Qed.

(** C2: the tables depend only on the plays of the target season with
    week <= cutoff, season type REG, play type pass or run and epa present;
    each play's success is [epa > 0] and its explosive flag is (pass and
    air-yards >= 20) or (run and yards-gained >= 12), absent air-yards failing
    the pass branch; the QB/RB/WR/TE rows carry the team's success and
    explosive shares; the OL row carries 1 - sacks/max(attempts, 1) (absent
    sack = 0) and 1 - stuffed/max(runs, 1) (stuffed iff yards-gained <= 0). *)
Theorem aggregation_contract (pbp : list Play) (s w : Z) :
  compute_team_unit_metrics pbp s w =
    compute_team_unit_metrics (List.filter (spec_kept s w) pbp) s w /\
  (forall p, success (derive p) = (if spec_success p then 1 else 0)%Z /\
             explosive (derive p) = (if spec_explosive p then 1 else 0)%Z) /\
  (forall r, In r (rows (fst (compute_team_unit_metrics pbp s w))) ->
     In (o_unit r) ["QB"; "RB"; "WR"; "TE"] ->
     exists x y, success_rate r = Some x /\
                 x == share spec_success (spec_team_plays pbp s w (o_team r)) /\
                 explosive_rate r = Some y /\
                 y == share spec_explosive (spec_team_plays pbp s w (o_team r))) /\
  (forall r, In r (rows (fst (compute_team_unit_metrics pbp s w))) ->
     o_unit r = "OL" ->
     pass_block_win r = spec_pass_block_win pbp s w (o_team r) /\
     run_block_win r = spec_run_block_win pbp s w (o_team r)).
Proof.
  split.
  { unfold compute_team_unit_metrics. rewrite !filtered_spec.
    rewrite filter_filter_and.
    rewrite (filter_ext (fun x => spec_kept s w x && spec_kept s w x) (spec_kept s w))
      by (intros p; destruct (spec_kept s w p); reflexivity).
    reflexivity. }
  split; [intros p; split; [reflexivity | apply derive_explosive]|].
  split.
  - intros r Hr Hu. apply offense_rows_cases in Hr.
    destruct Hr as [(_ & Ht & E) | (Hol & _)].
    + rewrite <- group_rows_nonempty, group_all_spec in Ht.
      rewrite group_all_spec in E. unfold rates in E. injection E as _ E1 E2.
      assert (Hne : spec_team_plays pbp s w (o_team r) <> [])
        by (intros Z0; rewrite Z0 in Ht; apply Ht; reflexivity).
      destruct (rate_share spec_success success _ Hne) as [x [Hx1 Hx2]];
        [intros; reflexivity|].
      destruct (rate_share spec_explosive explosive _ Hne) as [y [Hy1 Hy2]];
        [apply derive_explosive|].
      exists x, y. rewrite E1, E2. auto.
    + rewrite Hol in Hu. simpl in Hu. intuition discriminate.
  - intros r Hr Hu. apply offense_rows_cases in Hr.
    destruct Hr as [(Hin & _) | (_ & E1 & E2)].
    + rewrite Hu in Hin. simpl in Hin. intuition discriminate.
    + rewrite E1, E2. unfold ol_pass, ol_run, pass_df, run_df.
      rewrite !assoc_groupby.
      rewrite (group_filter_spec pbp s w (o_team r) (fun p => String.eqb (play_type p) "pass")).
      rewrite (group_filter_spec pbp s w (o_team r) (fun p => String.eqb (play_type p) "run")).
      unfold spec_pass_block_win, spec_run_block_win.
      split.
      * destruct (List.filter _ (spec_team_plays pbp s w (o_team r))) as [|p0 ps]; [reflexivity|].
        unfold ratio, count. rewrite length_map, sum_Z_map. reflexivity.
      * destruct (List.filter _ (spec_team_plays pbp s w (o_team r))) as [|p0 ps]; [reflexivity|].
        unfold ratio, count. rewrite length_map, sum_Z_map.
        rewrite <- (sum_Z_indicator (fun p => Qle_bool (yards_gained p) 0)).
        reflexivity.
Qed.

(** * Further properties of the code *)

(** ** normalize *)

Lemma normalize_cases (s : list (option Q)) :
  normalize s false = halves s \/
  exists mn mx, mn < mx /\ (forall x, In x (dropna s) -> mn <= x <= mx) /\
    normalize s false = map (option_map (fun x => (x - mn) / (mx - mn))) s.
Proof.
  unfold normalize, series_min, series_max.
  destruct (Nat.leb (nunique (dropna s)) 1); [left; reflexivity|].
  destruct (dropna s) as [|a l] eqn:Ed; [left; reflexivity|].
  destruct (fold_min_spec (a :: l) ltac:(discriminate)) as [mn [Hmn [Hinmn Hlemn]]].
  destruct (fold_max_spec (a :: l) ltac:(discriminate)) as [mx [Hmx [Hinmx Hlemx]]].
  rewrite Hmn, Hmx.
  destruct (Qeq_bool mx mn) eqn:Eq; [left; reflexivity|].
  right. exists mn, mx. split; [|split; [|reflexivity]].
  - assert (Hle : mn <= mx) by (apply Hlemx; exact Hinmn).
    apply Qle_lteq in Hle. destruct Hle as [Hlt|He]; [exact Hlt|].
    assert (Qeq_bool mx mn = true) by (apply Qeq_bool_iff; symmetry; exact He).
    congruence.
  - intros x Hx. split; [apply Hlemn | apply Hlemx]; exact Hx.
Qed.

Lemma normalize_true (s : list (option Q)) :
  normalize s true = map (option_map (fun y => 1 - y)) (normalize s false).
Proof. reflexivity. Qed.

Lemma normalize_unit_false (s : list (option Q)) (v : Q) :
  In (Some v) (normalize s false) -> 0 <= v <= 1.
Proof.
  destruct (normalize_cases s) as [E | (mn & mx & Hlt & Hb & E)]; rewrite E; intros H;
    apply in_map_iff in H.
  - destruct H as [x [Hx _]]. injection Hx as <-. split; discriminate.
  - destruct H as [[z|] [Ez Hz]]; [|discriminate].
    injection Ez as <-. apply in_dropna in Hz.
    apply rescale_unit; [exact Hlt | apply Hb | apply Hb]; exact Hz.
Qed.

Lemma normalize_unit (s : list (option Q)) (invert : bool) (v : Q) :
  In (Some v) (normalize s invert) -> 0 <= v <= 1.
Proof.
  destruct invert; [|apply normalize_unit_false].
  rewrite normalize_true. intros H. apply in_map_iff in H.
  destruct H as [[y|] [Ey Hy]]; [|discriminate].
  injection Ey as <-. apply one_minus_unit. apply (normalize_unit_false s y Hy).
Qed.

Lemma normalize_length (s : list (option Q)) (invert : bool) :
  length (normalize s invert) = length s.
Proof.
  assert (H0 : length (normalize s false) = length s).
  { destruct (normalize_cases s) as [E | (mn & mx & _ & _ & E)]; rewrite E;
      unfold halves; apply length_map. }
  destruct invert; [|exact H0].
  rewrite normalize_true, length_map. exact H0.
Qed.

(** X1: [normalize] keeps the length of its column and every present value
    of its output, inverted or not, lies in [[0, 1]]. *)
Theorem normalize_output_in_unit (s : list (option Q)) (invert : bool) :
  length (normalize s invert) = length s /\
  (forall v, In (Some v) (normalize s invert) -> 0 <= v <= 1).
Proof.
  split; [apply normalize_length|]. intros v. apply normalize_unit.
Qed.

Lemma rescale_mono (x y mn mx : Q) :
  mn < mx -> x <= y -> (x - mn) / (mx - mn) <= (y - mn) / (mx - mn).
Proof.
  intros Hlt Hxy.
  assert (Hp : 0 < mx - mn) by (apply Qlt_minus_iff in Hlt; exact Hlt).
  unfold Qdiv. apply Qmult_le_compat_r.
  - apply Qplus_le_compat; [exact Hxy | apply Qle_refl].
  - apply Qinv_le_0_compat. apply Qlt_le_weak. exact Hp.
Qed.

(** X2: [normalize] preserves the order of present values: if [x <= y] at
    positions [i] and [j], the outputs there are present with [a <= b]
    without inversion, and [1 - a >= 1 - b] with inversion. *)
Theorem normalize_monotone (s : list (option Q)) (i j : nat) (x y : Q)
    (Hi : nth_error s i = Some (Some x)) (Hj : nth_error s j = Some (Some y))
    (Hxy : x <= y) :
  exists a b,
    nth_error (normalize s false) i = Some (Some a) /\
    nth_error (normalize s false) j = Some (Some b) /\ a <= b /\
    nth_error (normalize s true) i = Some (Some (1 - a)) /\
    nth_error (normalize s true) j = Some (Some (1 - b)) /\ 1 - b <= 1 - a.
Proof.
  assert (Hf : exists a b,
    nth_error (normalize s false) i = Some (Some a) /\
    nth_error (normalize s false) j = Some (Some b) /\ a <= b).
  { destruct (normalize_cases s) as [E | (mn & mx & Hlt & _ & E)]; rewrite E;
      unfold halves; rewrite !nth_error_map, Hi, Hj; simpl.
    - exists (1#2), (1#2). split; [reflexivity|]. split; [reflexivity|]. apply Qle_refl.
    - eexists; eexists. split; [reflexivity|]. split; [reflexivity|].
      apply rescale_mono; assumption. }
  destruct Hf as (a & b & Ha & Hb & Hab).
  exists a, b. rewrite normalize_true, !nth_error_map, Ha, Hb. simpl.
  split; [reflexivity|]. split; [reflexivity|]. split; [exact Hab|].
  split; [reflexivity|]. split; [reflexivity|]. lra.
Qed.

Lemma normalize_monotone_witness :
  nth_error [Some 3; None; Some 5; Some 4] 0 = Some (Some 3) /\
  nth_error [Some 3; None; Some 5; Some 4] 3 = Some (Some 4) /\
  3 <= 4 /\
  exists a b,
    nth_error (normalize [Some 3; None; Some 5; Some 4] false) 0 = Some (Some a) /\
    nth_error (normalize [Some 3; None; Some 5; Some 4] false) 3 = Some (Some b) /\ a <= b /\
    nth_error (normalize [Some 3; None; Some 5; Some 4] true) 0 = Some (Some (1 - a)) /\
    nth_error (normalize [Some 3; None; Some 5; Some 4] true) 3 = Some (Some (1 - b)) /\
    1 - b <= 1 - a.
Proof.
  split; [reflexivity|]. split; [reflexivity|]. split; [discriminate|].
  apply (normalize_monotone [Some 3; None; Some 5; Some 4] 0 3 3 4);
    [reflexivity | reflexivity | discriminate].
Defined.

(** ** unitize_offense, unitize_defense *)

Lemma at_in (l : list (option Q)) (i : nat) (v : Q) : at_ l i = Some v -> In (Some v) l.
Proof.
  unfold at_. intros H. destruct (Nat.lt_ge_cases i (length l)) as [Hl|Hl].
  - rewrite <- H. apply nth_In. exact Hl.
  - rewrite nth_overflow in H by exact Hl. discriminate.
Qed.

Lemma sumQ_unit_bounds (vs : list Q) :
  (forall v, In v vs -> 0 <= v <= 1) -> 0 <= sumQ vs <= inject_Z (Z.of_nat (length vs)).
Proof.
  induction vs as [|a l IH]; intros H; simpl.
  - split; apply Qle_refl.
  - rewrite Nat2Z.inj_succ, <- Z.add_1_l, inject_Z_plus.
    destruct (H a (or_introl eq_refl)) as [H1 H2].
    destruct (IH (fun v Hv => H v (or_intror Hv))) as [H3 H4].
    change (inject_Z 1) with 1. split; lra.
Qed.

Lemma mean_present_unit (vals : list (option Q)) (m : Q) :
  (forall v, In (Some v) vals -> 0 <= v <= 1) -> mean_present vals = Some m -> 0 <= m <= 1.
Proof.
  intros H. unfold mean_present, np_mean.
  destruct (dropna vals) as [|a l] eqn:E; [discriminate|]. intros Hm. injection Hm as <-.
  assert (Hall : forall v, In v (a :: l) -> 0 <= v <= 1)
    by (intros v Hv; rewrite <- E in Hv; apply in_dropna in Hv; apply H; exact Hv).
  destruct (sumQ_unit_bounds _ Hall) as [H1 H2].
  assert (Hn : 0 < inject_Z (Z.of_nat (length (a :: l)))).
  { unfold Qlt. simpl. lia. }
  split.
  - apply Qle_shift_div_l; [exact Hn|]. rewrite Qmult_0_l. exact H1.
  - apply Qle_shift_div_r; [exact Hn|]. rewrite Qmult_1_l. exact H2.
Qed.

Lemma combine_seq_snd {R} (k : nat) (l : list R) :
  map snd (combine (seq k (length l)) l) = l.
Proof.
  revert k. induction l as [|a l IH]; intros k; simpl; [reflexivity|].
  rewrite IH. reflexivity.
Qed.

Lemma combine_seq_in {R} (k : nat) (l : list R) (i : nat) (r : R) :
  In (i, r) (combine (seq k (length l)) l) -> In r l.
Proof. intros H. apply in_combine_r in H. exact H. Qed.

Lemma unitize_offense_ok (fr : Frame OffenseUnitMetric) (out : list (OffNorm * option Q)) :
  unitize_offense fr = Ok out ->
  map (fun p => (on_team (fst p), on_unit (fst p))) out = map (fun r => (o_team r, o_unit r)) (rows fr) /\
  (forall n v, In (n, Some v) out -> 0 <= v <= 1).
Proof.
  unfold unitize_offense, col.
  repeat match goal with
  | |- context [existsb ?f (columns fr)] => destruct (existsb f (columns fr))
  end; cbn [py_bind]; try discriminate.
  destruct (unit_readable fr); [|discriminate].
  intros Hout. injection Hout as <-. split.
  - rewrite map_map.
    rewrite (map_ext _ (fun ir => (o_team (snd ir), o_unit (snd ir)))) by (intros [i r]; reflexivity).
    rewrite <- (map_map snd (fun r => (o_team r, o_unit r))), combine_seq_snd. reflexivity.
  - intros n v Hin. apply in_map_iff in Hin. destruct Hin as [[i r] [E _]].
    cbv beta iota zeta in E. injection E as <- Hs.
    apply (mean_present_unit _ _) in Hs; [exact Hs|].
    unfold offense_unit_score. cbn [on_unit pbw_n rbw_n epa_n succ_n expl_n].
    intros w Hw. destruct (String.eqb (o_unit r) "OL"); cbn [In] in Hw;
      repeat destruct Hw as [Hw|Hw]; try contradiction;
      apply at_in in Hw;
      first [exact (normalize_unit _ false w Hw) | exact (normalize_unit _ true w Hw)].
Qed.

Lemma unitize_defense_ok (fr : Frame DefenseUnitMetric) (out : list (DefNorm * option Q)) :
  unitize_defense fr = Ok out ->
  map (fun p => (dn_team (fst p), dn_unit (fst p))) out = map (fun r => (d_team r, d_unit r)) (rows fr) /\
  (forall n v, In (n, Some v) out -> 0 <= v <= 1).
Proof.
  unfold unitize_defense, col.
  repeat match goal with
  | |- context [existsb ?f (columns fr)] => destruct (existsb f (columns fr))
  end; cbn [py_bind]; try discriminate.
  destruct (unit_readable fr); [|discriminate].
  intros Hout. injection Hout as <-. split.
  - rewrite map_map.
    rewrite (map_ext _ (fun ir => (d_team (snd ir), d_unit (snd ir)))) by (intros [i r]; reflexivity).
    rewrite <- (map_map snd (fun r => (d_team r, d_unit r))), combine_seq_snd. reflexivity.
  - intros n v Hin. apply in_map_iff in Hin. destruct Hin as [[i r] [E _]].
    cbv beta iota zeta in E. injection E as <- Hs.
    apply (mean_present_unit _ _) in Hs; [exact Hs|].
    unfold defense_unit_score.
    cbn [dn_unit pressure_n run_stop_win_n expl_allowed_n succ_allowed_n epa_allowed_n coverage_n].
    intros w Hw.
    destruct (String.eqb (d_unit r) "PassRush"); [|destruct (String.eqb (d_unit r) "RunDefense");
      [|destruct (String.eqb (d_unit r) "CoverageDB" || String.eqb (d_unit r) "CoverageLB");
        [|destruct (String.eqb (d_unit r) "DL")]]]; cbn [In] in Hw;
      repeat destruct Hw as [Hw|Hw]; try contradiction;
      apply at_in in Hw;
      first [exact (normalize_unit _ false w Hw) | exact (normalize_unit _ true w Hw)].
Qed.



(** X4: when they return, [unitize_offense] and [unitize_defense] give one
    scored row per input row, in order, with the same team and unit, and
    every present unit score lies in [[0, 1]]. *)
Theorem unitize_rows_and_scores (fo : Frame OffenseUnitMetric) (fd : Frame DefenseUnitMetric)
    (of : list (OffNorm * option Q)) (df : list (DefNorm * option Q))
    (Ho : unitize_offense fo = Ok of) (Hd : unitize_defense fd = Ok df) :
  map (fun p => (on_team (fst p), on_unit (fst p))) of = map (fun r => (o_team r, o_unit r)) (rows fo) /\
  (forall n v, In (n, Some v) of -> 0 <= v <= 1) /\
  map (fun p => (dn_team (fst p), dn_unit (fst p))) df = map (fun r => (d_team r, d_unit r)) (rows fd) /\
  (forall n v, In (n, Some v) df -> 0 <= v <= 1).
Proof.
  destruct (unitize_offense_ok fo of Ho) as [H1 H2].
  destruct (unitize_defense_ok fd df Hd) as [H3 H4].
  auto.
Qed.

Lemma unitize_rows_and_scores_witness :
  unitize_offense (fst (compute_team_unit_metrics sample_log 2024 3)) = Ok unitized_sample_offense /\
  unitize_defense (snd (compute_team_unit_metrics sample_log 2024 3)) = Ok unitized_sample_defense /\
  forall n v, In (n, Some v) unitized_sample_offense -> 0 <= v <= 1.
Proof.
  split; [vm_compute; reflexivity|]. split; [vm_compute; reflexivity|].
  apply (unitize_rows_and_scores (fst (compute_team_unit_metrics sample_log 2024 3))
           (snd (compute_team_unit_metrics sample_log 2024 3))
           unitized_sample_offense unitized_sample_defense);
    vm_compute; reflexivity.
Defined.

(** ** build_maps *)

Lemma find_app {A} (f : A -> bool) (l1 l2 : list A) :
  find f (l1 ++ l2) = match find f l1 with Some x => Some x | None => find f l2 end.
Proof. induction l1 as [|a l1 IH]; simpl; [reflexivity|]. destruct (f a); [reflexivity|exact IH]. Qed.

Lemma fold_insert_lookup {R} (key : R -> string * string) (l : list (R * option Q))
    (m0 : ScoreMap) (k : string * string) :
  fold_left (fun m r => <[key (fst r) := snd r]> m) l m0 !! k =
  match find (fun r => bool_decide (key (fst r) = k)) (rev l) with
  | Some r => Some (snd r)
  | None => m0 !! k
  end.
Proof.
  revert m0. induction l as [|x l IH]; intros m0; simpl; [reflexivity|].
  rewrite IH, find_app. destruct (find _ (rev l)); [reflexivity|].
  simpl. rewrite lookup_insert. case_bool_decide; case_decide; congruence.
Qed.

Lemma fold_insert_get {R} (key : R -> string * string) (l : list (R * option Q))
    (k : string * string) :
  get (fold_left (fun m r => <[key (fst r) := snd r]> m) l ∅) k = last_score key l k.
Proof.
  unfold get, last_score. rewrite fold_insert_lookup.
  destruct (find _ (rev l)); [reflexivity|]. rewrite lookup_empty. reflexivity.
Qed.

Lemma last_score_in {R} (key : R -> string * string) (l : list (R * option Q))
    (k : string * string) (v : Q) :
  last_score key l k = Some v -> exists n, In (n, Some v) l.
Proof.
  unfold last_score. destruct (find _ (rev l)) as [[n x]|] eqn:E; [|discriminate].
  simpl. intros ->. exists n. apply find_some in E. apply in_rev. apply E.
Qed.

(** X5: the score [build_maps] stores for a key (team, unit) is the score of
    the last row of the table with that team and unit (a later row overwrites
    an earlier one), and a key with no row reads as absent. *)
Theorem build_maps_lookup (of : list (OffNorm * option Q)) (df : list (DefNorm * option Q))
    (k : string * string) :
  get (fst (build_maps of df)) k = last_score (fun n => (on_team n, on_unit n)) of k /\
  get (snd (build_maps of df)) k = last_score (fun n => (dn_team n, dn_unit n)) df k.
Proof.
  unfold build_maps. simpl. split.
  - apply (fold_insert_get (fun n => (on_team n, on_unit n))).
  - apply (fold_insert_get (fun n => (dn_team n, dn_unit n))).
Qed.

(** ** unit_matchup and adjusted_team_edge *)

Lemma scores_in_unit_b_sound (m : ScoreMap) : scores_in_unit_b m = true -> scores_in_unit m.
Proof.
  unfold scores_in_unit_b, scores_in_unit, get. intros H k v Hk.
  destruct (m !! k) as [x|] eqn:E; [|discriminate]. subst x.
  apply elem_of_map_to_list in E.
  rewrite forallb_forall in H.
  assert (Hin : List.In (k, Some v) (map_to_list m)) by (apply list_elem_of_In; exact E).
  specialize (H _ Hin). simpl in H. apply andb_true_iff in H. destruct H as [H1 H2].
  apply Qle_bool_iff in H1. apply Qle_bool_iff in H2. split; assumption.
Qed.

Lemma edges_within_b_sound (lo hi : Q) (E : Edges) :
  edges_within_b lo hi E = true -> edges_within lo hi E.
Proof.
  unfold edges_within_b, edges_within. intros H e He.
  rewrite forallb_forall in H. specialize (H _ He). simpl in H.
  apply andb_true_iff in H. destruct H as [H1 H2].
  apply Qle_bool_iff in H1. apply Qle_bool_iff in H2. split; assumption.
Qed.

Lemma term_bounds (a : option Q) (w : Q) :
  (forall v, a = Some v -> 0 <= v <= 1) -> 0 <= w -> 0 <= term a w <= w.
Proof.
  intros H Hw. destruct a as [v|]; simpl.
  - destruct (H v eq_refl). split; nra.
  - split; [apply Qle_refl | exact Hw].
Qed.

Lemma blend_bounds (o a b : option Q) (w e : Q) :
  (forall v, o = Some v -> 0 <= v <= 1) ->
  (forall v, a = Some v -> 0 <= v <= 1) ->
  (forall v, b = Some v -> 0 <= v <= 1) ->
  0 <= w <= 1 -> blend_edge o a b w = Some e -> -1 <= e <= 1.
Proof.
  intros Ho Ha Hb [Hw0 Hw1]. destruct o as [x|]; [|discriminate]. simpl.
  intros He. injection He as <-.
  destruct (Ho x eq_refl).
  destruct (term_bounds a w Ha Hw0).
  assert (Hw' : 0 <= 1 - w) by lra.
  destruct (term_bounds b (1 - w) Hb Hw').
  split; lra.
Qed.

Lemma raw_edges_in_unit (o d : string) (om dm : ScoreMap) (qc rr tc op : Q) :
  scores_in_unit om -> scores_in_unit dm ->
  0 <= qc <= 1 -> 0 <= rr <= 1 -> 0 <= tc <= 1 -> 0 <= op <= 1 ->
  edges_within (-1) 1 (unit_matchup o d om dm qc rr tc op).
Proof.
  intros Hom Hdm Hqc Hrr Htc Hop e He.
  unfold unit_matchup in He. cbn [QB_edge RB_edge WR_edge TE_edge OL_edge In] in He.
  assert (Go : forall k v, get om k = Some v -> 0 <= v <= 1) by exact Hom.
  assert (Gd : forall k v, get dm k = Some v -> 0 <= v <= 1) by exact Hdm.
  destruct He as [He|[He|[He|[He|[He|[]]]]]];
    try (eapply blend_bounds; [ | | | | exact He];
         first [ intros v Hv; apply (Go _ v Hv) | intros v Hv; apply (Gd _ v Hv) | assumption ]).
  destruct (get om (o, "WR")) as [x|] eqn:E1; [|discriminate].
  destruct (get dm (d, "CoverageDB")) as [c|] eqn:E2; [|discriminate].
  injection He as <-. destruct (Go _ _ E1). destruct (Gd _ _ E2). split; lra.
Qed.

(** X6: if every present score of both maps lies in [[0, 1]] and the four
    share sliders lie in [[0, 1]], every present raw unit edge computed by
    [unit_matchup] lies in [[-1, 1]]. *)
Theorem unit_edges_bounded (o d : string) (om dm : ScoreMap) (qc rr tc op : Q)
    (Hom : scores_in_unit om) (Hdm : scores_in_unit dm)
    (Hqc : 0 <= qc <= 1) (Hrr : 0 <= rr <= 1) (Htc : 0 <= tc <= 1) (Hop : 0 <= op <= 1) :
  edges_within (-1) 1 (unit_matchup o d om dm qc rr tc op).
Proof. apply raw_edges_in_unit; assumption. Qed.

Lemma unit_edges_bounded_witness :
  scores_in_unit twin_off_map /\ scores_in_unit twin_def_map /\
  edges_within (-1) 1 (unit_matchup "KC" "BAL" twin_off_map twin_def_map
                         (6#10) (65#100) (55#100) (6#10)).
Proof.
  assert (H1 : scores_in_unit twin_off_map) by (apply scores_in_unit_b_sound; vm_compute; reflexivity).
  assert (H2 : scores_in_unit twin_def_map) by (apply scores_in_unit_b_sound; vm_compute; reflexivity).
  split; [exact H1|]. split; [exact H2|].
  apply (unit_edges_bounded "KC" "BAL" twin_off_map twin_def_map (6#10) (65#100) (55#100) (6#10)
           H1 H2); split; discriminate.
Defined.

Lemma qualifying_in (w : UnitKey -> Q) (l : list (UnitKey * option Q)) (k : UnitKey) (v : Q) :
  In (k, v) (qualifying_units w l) -> In (k, Some v) l /\ 0 < w k.
Proof.
  induction l as [|[k' [v'|]] l IH]; simpl; [tauto| |].
  - destruct (Qlt_bool 0 (w k')) eqn:E.
    + intros [H|H].
      * injection H as -> ->. apply Qlt_bool_iff in E. auto.
      * destruct (IH H). auto.
    + intros H. destruct (IH H). auto.
  - intros H. destruct (IH H). auto.
Qed.

Lemma weighted_bounds (w : UnitKey -> Q) (q : list (UnitKey * Q)) (lo hi : Q) :
  (forall kv, In kv q -> 0 < w (fst kv) /\ lo <= snd kv <= hi) ->
  lo * weight_sum w q <= weighted_sum w q <= hi * weight_sum w q.
Proof.
  unfold weighted_sum, weight_sum.
  induction q as [|[k v] q IH]; intros H; simpl.
  - rewrite !Qmult_0_r. split; apply Qle_refl.
  - destruct (H (k, v) (or_introl eq_refl)) as [Hk [Hl Hh]]. simpl in Hk, Hl, Hh.
    destruct (IH (fun kv Hkv => H kv (or_intror Hkv))) as [I1 I2].
    split; nra.
Qed.

Lemma team_edge_bounds (w : UnitKey -> Q) (adj : Edges) (lo hi t : Q) :
  edges_within lo hi adj -> team_edge_Q w adj = Some t -> lo <= t <= hi.
Proof.
  intros Hadj Ht.
  destruct (team_edge_Q_spec w adj) as [H0 H1].
  destruct (qualifying_units w (items adj)) as [|kv q] eqn:Eq.
  { rewrite H0 in Ht by reflexivity. discriminate. }
  destruct (H1 ltac:(discriminate)) as [x [Hx Hv]]. rewrite Ht in Hx. injection Hx as <-.
  assert (Hall : forall p, In p (kv :: q) -> 0 < w (fst p) /\ lo <= snd p <= hi).
  { intros [k v] Hp. rewrite <- Eq in Hp. apply qualifying_in in Hp. destruct Hp as [Hin Hk].
    split; [exact Hk|]. apply Hadj. simpl.
    unfold items, adj_items in Hin. simpl in Hin.
    destruct Hin as [E|[E|[E|[E|[E|[]]]]]]; injection E as _ E; rewrite <- E; tauto. }
  pose proof (qualifying_units_pos w (items adj)) as Hpos. rewrite Eq in Hpos.
  specialize (Hpos ltac:(discriminate)).
  destruct (weighted_bounds w (kv :: q) lo hi Hall) as [B1 B2].
  rewrite Hv. split.
  - apply Qle_shift_div_l; [exact Hpos|]. exact B1.
  - apply Qle_shift_div_r; [exact Hpos|]. exact B2.
Qed.

Lemma adjust_within (raw : Edges) (ttf : Q) :
  edges_within (-1) 1 raw -> 0 <= ttf <= 1 -> edges_within (-1) 1 (adjust raw ttf).
Proof.
  intros H [T0 T1] e He. destruct raw as [qb rb wr te ol].
  unfold adjust, scale in He. cbn [QB_edge RB_edge WR_edge TE_edge OL_edge In] in He.
  assert (Hb : forall x, In (Some x) [qb; rb; wr; te; ol] -> -1 <= x <= 1) by exact H.
  destruct He as [He|[He|[He|[He|[He|[]]]]]].
  - destruct qb as [x|]; [|discriminate]. injection He as <-.
    destruct (Hb x (or_introl eq_refl)). split; nra.
  - apply Hb. subst rb. simpl. tauto.
  - destruct wr as [x|]; [|discriminate]. injection He as <-.
    destruct (Hb x (or_intror (or_intror (or_introl eq_refl)))). split; nra.
  - destruct te as [x|]; [|discriminate]. injection He as <-.
    destruct (Hb x (or_intror (or_intror (or_intror (or_introl eq_refl))))). split; nra.
  - apply Hb. subst ol. simpl. tauto.
Qed.

Lemma build_maps_in_unit (fo : Frame OffenseUnitMetric) (fd : Frame DefenseUnitMetric)
    (of : list (OffNorm * option Q)) (df : list (DefNorm * option Q)) :
  unitize_offense fo = Ok of -> unitize_defense fd = Ok df ->
  scores_in_unit (fst (build_maps of df)) /\ scores_in_unit (snd (build_maps of df)).
Proof.
  intros Ho Hd.
  destruct (unitize_offense_ok fo of Ho) as [_ Bo].
  destruct (unitize_defense_ok fd df Hd) as [_ Bd].
  unfold build_maps. simpl. split; intros k v Hk.
  - rewrite (fold_insert_get (fun n => (on_team n, on_unit n))) in Hk.
    apply last_score_in in Hk. destruct Hk as [n Hn]. exact (Bo n v Hn).
  - rewrite (fold_insert_get (fun n => (dn_team n, dn_unit n))) in Hk.
    apply last_score_in in Hk. destruct Hk as [n Hn]. exact (Bd n v Hn).
Qed.

(** X8: along the app's pipeline ([unitize_offense], [unitize_defense],
    [build_maps], [adjusted_team_edge], the net edge), with the four share
    sliders in [[0, 1]] and any weights and trench impact, every team edge
    lies in [[-1, 1]] and every net edge in [[-2, 2]]. *)
Theorem pipeline_edges_bounded (fo : Frame OffenseUnitMetric) (fd : Frame DefenseUnitMetric)
    (of : list (OffNorm * option Q)) (df : list (DefNorm * option Q)) (cfg : GameConfig)
    (Ho : unitize_offense fo = Ok of) (Hd : unitize_defense fd = Ok df)
    (Hqc : 0 <= qb_cov_w cfg <= 1) (Hrr : 0 <= rb_run_w cfg <= 1)
    (Htc : 0 <= te_covlb_w cfg <= 1) (Hop : 0 <= ol_pass_w cfg <= 1) :
  (forall o d t,
     fst (fst (fst (side_edge cfg o d (fst (build_maps of df)) (snd (build_maps of df))))) = Some t ->
     -1 <= t <= 1) /\
  (forall h a n,
     fst (game_verdict cfg h a (fst (build_maps of df)) (snd (build_maps of df))) = Some n ->
     -2 <= n <= 2).
Proof.
  destruct (build_maps_in_unit fo fd of df Ho Hd) as [Bo Bd].
  assert (Side : forall o d t,
     fst (fst (fst (side_edge cfg o d (fst (build_maps of df)) (snd (build_maps of df))))) = Some t ->
     -1 <= t <= 1).
  { intros o d t Ht. unfold side_edge, adjusted_team_edge in Ht. simpl in Ht.
    eapply team_edge_bounds; [|exact Ht].
    apply adjust_within.
    - apply raw_edges_in_unit; assumption.
    - destruct (ttf_of_bounds (OL_edge (unit_matchup o d (fst (build_maps of df))
                                   (snd (build_maps of df)) (qb_cov_w cfg) (rb_run_w cfg)
                                   (te_covlb_w cfg) (ol_pass_w cfg))) (dep_strength cfg)).
      split; [|assumption]. apply Qle_trans with (2#10); [discriminate | assumption]. }
  split; [exact Side|].
  intros h a n. unfold game_verdict.
  destruct (side_edge cfg h a _ _) as [[[eh rh] ah] th] eqn:Eh.
  destruct (side_edge cfg a h _ _) as [[[ea ra] aa] ta] eqn:Ea.
  simpl. destruct eh as [x|], ea as [y|]; simpl; try discriminate.
  intros Hn. injection Hn as <-.
  assert (Hx := Side h a x). rewrite Eh in Hx. specialize (Hx eq_refl).
  assert (Hy := Side a h y). rewrite Ea in Hy. specialize (Hy eq_refl).
  split; lra.
Qed.

Lemma pipeline_edges_bounded_witness :
  unitize_offense (fst (compute_team_unit_metrics sample_log 2024 3)) = Ok unitized_sample_offense /\
  unitize_defense (snd (compute_team_unit_metrics sample_log 2024 3)) = Ok unitized_sample_defense /\
  forall h a n,
    fst (game_verdict default_config h a (fst (build_maps unitized_sample_offense unitized_sample_defense))
                                         (snd (build_maps unitized_sample_offense unitized_sample_defense)))
      = Some n -> -2 <= n <= 2.
Proof.
  assert (Ho : unitize_offense (fst (compute_team_unit_metrics sample_log 2024 3))
                 = Ok unitized_sample_offense) by (vm_compute; reflexivity).
  assert (Hd : unitize_defense (snd (compute_team_unit_metrics sample_log 2024 3))
                 = Ok unitized_sample_defense) by (vm_compute; reflexivity).
  split; [exact Ho|]. split; [exact Hd|].
  apply (pipeline_edges_bounded _ _ _ _ default_config Ho Hd); split; discriminate.
Defined.

(** ** The verdict of a game *)

(** X10: with a close-game margin [>= 0], swapping which team is at home
    never changes the verdict: the same team is picked to win (or the game
    stays too close to call, or stays insufficient data), and the net edge
    changes sign. *)
Theorem verdict_home_away_swap (cfg : GameConfig) (A B : string) (om dm : ScoreMap)
    (Hm : 0 <= close_margin cfg) :
  snd (game_verdict cfg B A om dm) = snd (game_verdict cfg A B om dm) /\
  (fst (game_verdict cfg B A om dm) = None <-> fst (game_verdict cfg A B om dm) = None) /\
  (forall n n', fst (game_verdict cfg A B om dm) = Some n ->
     fst (game_verdict cfg B A om dm) = Some n' -> n' == - n).
Proof.
  unfold game_verdict.
  destruct (side_edge cfg A B om dm) as [[[ea ra] aa] ta].
  destruct (side_edge cfg B A om dm) as [[[eb rb] ab] tb].
  destruct ea as [x|], eb as [y|]; simpl.
  2-4: split; [reflexivity|]; split; [tauto|]; intros n n' H; discriminate.
  split; [|split; [split; discriminate|]].
  - unfold verdict.
    destruct (Qlt_bool (close_margin cfg) (y - x)) eqn:E1,
             (Qlt_bool (y - x) (- close_margin cfg)) eqn:E2,
             (Qlt_bool (close_margin cfg) (x - y)) eqn:E3,
             (Qlt_bool (x - y) (- close_margin cfg)) eqn:E4;
      repeat match goal with
      | H : Qlt_bool _ _ = true |- _ => apply Qlt_bool_iff in H
      | H : Qlt_bool _ _ = false |- _ => apply Qlt_bool_false in H
      end; try reflexivity; exfalso; lra.
  - intros n n' Hn Hn'. injection Hn as <-. injection Hn' as <-. ring.
Qed.

Lemma verdict_home_away_swap_witness :
  0 <= close_margin default_config /\
  snd (game_verdict default_config "KC" "BAL" lopsided_off_map lopsided_def_map) =
    ShouldWin "KC" "BAL" /\
  snd (game_verdict default_config "BAL" "KC" lopsided_off_map lopsided_def_map) =
    ShouldWin "KC" "BAL" /\
  (forall n n',
     fst (game_verdict default_config "KC" "BAL" lopsided_off_map lopsided_def_map) = Some n ->
     fst (game_verdict default_config "BAL" "KC" lopsided_off_map lopsided_def_map) = Some n' ->
     n' == - n).
Proof.
  assert (Hm : 0 <= close_margin default_config) by discriminate.
  assert (Hw : snd (game_verdict default_config "KC" "BAL" lopsided_off_map lopsided_def_map) =
               ShouldWin "KC" "BAL") by (vm_compute; reflexivity).
  destruct (verdict_home_away_swap default_config "KC" "BAL" lopsided_off_map lopsided_def_map Hm)
    as [Hs [_ Hn]].
  split; [exact Hm|]. split; [exact Hw|]. split; [rewrite Hs; exact Hw|]. exact Hn.
Defined.

(** ** Missing defensive scores *)

Lemma get_insert_delete (dm : ScoreMap) (key : string * string) (v : Q) (k : string * string) :
  0 <= v ->
  get (<[key := Some v]> dm) k = get (delete key dm) k \/
  (exists x, 0 <= x /\ get (<[key := Some v]> dm) k = Some x /\ get (delete key dm) k = None).
Proof.
  intros Hv. unfold get. rewrite lookup_insert, lookup_delete.
  case_decide; [right; exists v; auto | left; reflexivity].
Qed.

Lemma term_le (a1 a0 : option Q) (w : Q) :
  0 <= w ->
  (a1 = a0 \/ (exists x, 0 <= x /\ a1 = Some x /\ a0 = None)) ->
  term a0 w <= term a1 w.
Proof.
  intros Hw [->|(x & Hx & -> & ->)]; [apply Qle_refl|]. simpl. nra.
Qed.

Lemma blend_missing_le (o a1 b1 a0 b0 : option Q) (w : Q) :
  0 <= w <= 1 ->
  (a1 = a0 \/ (exists x, 0 <= x /\ a1 = Some x /\ a0 = None)) ->
  (b1 = b0 \/ (exists x, 0 <= x /\ b1 = Some x /\ b0 = None)) ->
  opt_le (blend_edge o a1 b1 w) (blend_edge o a0 b0 w).
Proof.
  intros [Hw0 Hw1] Ha Hb. destruct o as [x|]; simpl; [|exact I].
  pose proof (term_le a1 a0 w Hw0 Ha).
  assert (Hw' : 0 <= 1 - w) by lra.
  pose proof (term_le b1 b0 (1 - w) Hw' Hb). lra.
Qed.

(** X11: a missing defensive unit score never lowers the opposing offense's
    QB, RB, TE or OL edge: with the share sliders in [[0, 1]], removing the
    entry of any defensive unit of the defending team whose score is
    [v >= 0] leaves each of these edges present or absent as before and
    never smaller. *)
Theorem missing_defense_favors_offense (o d u : string) (v : Q) (om dm : ScoreMap)
    (qc rr tc op : Q) (Hv : 0 <= v)
    (Hqc : 0 <= qc <= 1) (Hrr : 0 <= rr <= 1) (Htc : 0 <= tc <= 1) (Hop : 0 <= op <= 1) :
  let E1 := unit_matchup o d om (<[(d, u) := Some v]> dm) qc rr tc op in
  let E0 := unit_matchup o d om (delete (d, u) dm) qc rr tc op in
  opt_le (QB_edge E1) (QB_edge E0) /\ opt_le (RB_edge E1) (RB_edge E0) /\
  opt_le (TE_edge E1) (TE_edge E0) /\ opt_le (OL_edge E1) (OL_edge E0).
Proof.
  intros E1 E0. unfold E1, E0, unit_matchup. cbn [QB_edge RB_edge TE_edge OL_edge].
  split; [|split; [|split]]; apply blend_missing_le; try assumption;
    apply get_insert_delete; exact Hv.
Qed.

Lemma missing_defense_favors_offense_witness :
  0 <= 1 /\ 0 <= 6#10 <= 1 /\
  opt_le (QB_edge (unit_matchup "KC" "BAL" twin_off_map
                    (<[("BAL", "CoverageDB") := Some 1]> twin_def_map)
                    (6#10) (65#100) (55#100) (6#10)))
         (QB_edge (unit_matchup "KC" "BAL" twin_off_map
                    (delete ("BAL", "CoverageDB") twin_def_map)
                    (6#10) (65#100) (55#100) (6#10))).
Proof.
  split; [discriminate|]. split; [split; discriminate|].
  apply (missing_defense_favors_offense "KC" "BAL" "CoverageDB" 1 twin_off_map twin_def_map
           (6#10) (65#100) (55#100) (6#10)); try discriminate; split; discriminate.
Defined.

(** ** Loading the data *)

(** *** Relabelling the season of the fallback plays *)

Lemma filter_map_commute {A} (p : A -> bool) (f : A -> A) (l : list A) :
  (forall x, p (f x) = p x) -> List.filter p (map f l) = map f (List.filter p l).
Proof.
  intros Hp. rewrite filter_map_swap. f_equal. apply filter_ext. intros x. apply Hp.
Qed.

Lemma group_keys_map {R} (key : R -> option string) (f : R -> R) (l : list R) :
  (forall r, key (f r) = key r) -> group_keys key (map f l) = group_keys key l.
Proof.
  intros Hk. unfold group_keys. induction l as [|r l IH]; simpl; [reflexivity|].
  rewrite IH, Hk. reflexivity.
Qed.

Lemma groupby_agg_map {R A} (key : R -> option string) (agg : list R -> A)
    (f : R -> R) (l : list R) :
  (forall r, key (f r) = key r) -> (forall g, agg (map f g) = agg g) ->
  groupby_agg key agg (map f l) = groupby_agg key agg l.
Proof.
  intros Hk Ha. unfold groupby_agg. rewrite (group_keys_map key f l Hk).
  apply map_ext. intros t. unfold group_rows.
  rewrite (filter_map_commute (key_is key t) f l) by (intros r; unfold key_is; rewrite Hk; reflexivity).
  rewrite Ha. reflexivity.
Qed.

Lemma sum_Z_map_inv {R} (h : R -> Z) (f : R -> R) (g : list R) :
  (forall r, h (f r) = h r) -> sum_Z h (map f g) = sum_Z h g.
Proof.
  intros Hh. unfold sum_Z. induction g as [|r g IH]; simpl; [reflexivity|]. rewrite IH, Hh. reflexivity.
Qed.

Lemma count_map {R} (f : R -> R) (g : list R) : count (map f g) = count g.
Proof. unfold count. rewrite length_map. reflexivity. Qed.

(** The facts of a filtered play that the metrics read. *)
Definition same_metric_fields (f : DPlay -> DPlay) : Prop :=
  forall d, off_key (f d) = off_key d /\ def_key (f d) = def_key d /\
            play_type (dp (f d)) = play_type (dp d) /\ epa (dp (f d)) = epa (dp d) /\
            success (f d) = success d /\ explosive (f d) = explosive d /\
            sack (dp (f d)) = sack (dp d) /\ yards_gained (dp (f d)) = yards_gained (dp d).

Lemma metrics_of_filtered (pbp1 pbp2 : list Play) (s1 w1 s2 w2 : Z) (f : DPlay -> DPlay) :
  same_metric_fields f ->
  filtered pbp1 s1 w1 = map f (filtered pbp2 s2 w2) ->
  compute_team_unit_metrics pbp1 s1 w1 = compute_team_unit_metrics pbp2 s2 w2.
Proof.
  intros Hf Hfil. unfold compute_team_unit_metrics. rewrite Hfil.
  set (df := filtered pbp2 s2 w2).
  assert (Ko : forall d, off_key (f d) = off_key d) by (intros d; apply Hf).
  assert (Kd : forall d, def_key (f d) = def_key d) by (intros d; apply Hf).
  assert (Hr : forall g, rates (map f g) = rates g).
  { intros g. unfold rates. rewrite !map_map.
    f_equal; [f_equal|]; f_equal; apply map_ext; intros d; destruct (Hf d) as (_&_&_&E&S&X&_);
      rewrite ?E, ?S, ?X; reflexivity. }
  assert (Hp : pass_df (map f df) = map f (pass_df df)).
  { apply filter_map_commute. intros d. destruct (Hf d) as (_&_&P&_). rewrite P. reflexivity. }
  assert (Hu : run_df (map f df) = map f (run_df df)).
  { apply filter_map_commute. intros d. destruct (Hf d) as (_&_&P&_). rewrite P. reflexivity. }
  assert (Sk : forall d, sack_filled (f d) = sack_filled d).
  { intros d. unfold sack_filled. destruct (Hf d) as (_&_&_&_&_&_&K&_). rewrite K. reflexivity. }
  assert (St : forall d, stuffed (f d) = stuffed d).
  { intros d. unfold stuffed. destruct (Hf d) as (_&_&_&_&_&_&_&Y). rewrite Y. reflexivity. }
  assert (E1 : ol_pass (map f df) = ol_pass df).
  { unfold ol_pass. rewrite Hp. apply groupby_agg_map; [exact Ko|].
    intros g. rewrite (sum_Z_map_inv _ _ _ Sk), count_map. reflexivity. }
  assert (E2 : ol_run (map f df) = ol_run df).
  { unfold ol_run. rewrite Hu. apply groupby_agg_map; [exact Ko|].
    intros g. rewrite (sum_Z_map_inv _ _ _ St), count_map. reflexivity. }
  assert (E3 : def_pass (map f df) = def_pass df).
  { unfold def_pass. rewrite Hp. apply groupby_agg_map; [exact Kd|].
    intros g. rewrite (sum_Z_map_inv _ _ _ Sk), count_map. reflexivity. }
  assert (E4 : def_run (map f df) = def_run df).
  { unfold def_run. rewrite Hu. apply groupby_agg_map; [exact Kd|].
    intros g. rewrite (sum_Z_map_inv _ _ _ St), count_map. reflexivity. }
  rewrite E1, E2, E3, E4, (groupby_agg_map off_key rates f df Ko Hr),
          (groupby_agg_map def_key rates f df Kd Hr).
  reflexivity.
Qed.

Definition restamp (s : Z) (d : DPlay) : DPlay :=
  mkDPlay (set_season s (dp d)) (success d) (explosive d).

Lemma restamp_fields (s : Z) : same_metric_fields (restamp s).
Proof. intros d. repeat split. Qed.

Lemma filtered_relabelled (ps : list Play) (s fb w : Z) :
  forallb (fun p => Z.eqb (season p) fb) ps = true ->
  filtered (map (set_season s) ps) s w = map (restamp s) (filtered ps fb w).
Proof.
  intros Hall. unfold filtered.
  rewrite filter_map_swap, filter_map_swap, !map_map.
  assert (Hk : List.filter (fun p => keep_season_week s w (set_season s p)) ps =
               List.filter (keep_season_week fb w) ps).
  { apply filter_ext_in. intros p Hp.
    rewrite forallb_forall in Hall. specialize (Hall p Hp). apply Z.eqb_eq in Hall.
    unfold keep_season_week. simpl. rewrite Hall, !Z.eqb_refl. reflexivity. }
  rewrite Hk. f_equal.
Qed.

Lemma notice_text_nonempty (s fb : Z) : fallback_notice_text s fb <> "".
Proof. unfold fallback_notice_text. discriminate. Qed.

(** X12: when the requested season's play-by-play cannot be loaded,
    [fetch_pbp_season] falls back to the 2024 file, stamps every row with the
    requested season and sets the fallback notice; if that file holds only
    2024 plays, the unit metrics the app then computes for the requested
    season (any week) are exactly the 2024 metrics for that week. *)
Theorem fetch_pbp_fallback_metrics (read_pbp : Z -> option (Frame Play)) (s w : Z)
    (df : Frame Play)
    (Hs : read_pbp s = None) (Hfb : read_pbp PBP_FALLBACK_SEASON = Some df)
    (Hcol : In "season" (columns df))
    (H24 : forallb (fun p => Z.eqb (season p) PBP_FALLBACK_SEASON) (rows df) = true) :
  exists fr, fetch_pbp_season read_pbp s = Some fr /\
    fallback_notice fr = fallback_notice_text s PBP_FALLBACK_SEASON /\
    Forall (fun p => season p = s) (pbp_rows fr) /\
    compute_team_unit_metrics (pbp_rows fr) s w =
    compute_team_unit_metrics (rows df) PBP_FALLBACK_SEASON w.
Proof.
  unfold fetch_pbp_season. rewrite Hs, Hfb.
  assert (Hin : existsb (String.eqb "season") (add_column "__fallback_notice__" (columns df)) = true).
  { apply existsb_exists. exists "season". split; [|apply String.eqb_refl].
    unfold add_column. destruct (existsb _ (columns df)); [exact Hcol|].
    apply in_or_app. left. exact Hcol. }
  rewrite Hin. eexists. split; [reflexivity|]. simpl. split; [reflexivity|]. split.
  - apply List.Forall_forall. intros p Hp. apply in_map_iff in Hp. destruct Hp as [q [<- _]]. reflexivity.
  - apply (metrics_of_filtered _ _ _ _ _ _ (restamp s) (restamp_fields s)).
    apply filtered_relabelled. exact H24.
Qed.

Lemma fetch_pbp_fallback_metrics_witness :
  fallback_sample_reader 2025 = None /\
  fallback_sample_reader PBP_FALLBACK_SEASON =
    Some (mkFrame ["season"; "week"; "season_type"; "play_type"] sample_log) /\
  In "season" (columns (mkFrame ["season"; "week"; "season_type"; "play_type"] sample_log)) /\
  forallb (fun p => Z.eqb (season p) PBP_FALLBACK_SEASON) sample_log = true /\
  exists fr, fetch_pbp_season fallback_sample_reader 2025 = Some fr /\
    compute_team_unit_metrics (pbp_rows fr) 2025 3 =
    compute_team_unit_metrics sample_log PBP_FALLBACK_SEASON 3.
Proof.
  assert (H1 : fallback_sample_reader 2025 = None) by reflexivity.
  assert (H2 : fallback_sample_reader PBP_FALLBACK_SEASON =
    Some (mkFrame ["season"; "week"; "season_type"; "play_type"] sample_log)) by reflexivity.
  assert (H3 : In "season" (columns (mkFrame ["season"; "week"; "season_type"; "play_type"] sample_log)))
    by (simpl; left; reflexivity).
  assert (H4 : forallb (fun p => Z.eqb (season p) PBP_FALLBACK_SEASON) sample_log = true)
    by reflexivity.
  split; [exact H1|]. split; [exact H2|]. split; [exact H3|]. split; [exact H4|].
  destruct (fetch_pbp_fallback_metrics fallback_sample_reader 2025 3 _ H1 H2 H3 H4)
    as [fr [Hf [_ [_ Hm]]]].
  exists fr. split; [exact Hf | exact Hm].
Defined.

(** X13: [fetch_pbp_season] raises only when both the requested season and
    the 2024 fallback fail to load; whatever it returns carries a
    [__fallback_notice__] column, and the notice is empty exactly when the
    requested season itself was loaded. *)
Theorem fetch_pbp_outcome (read_pbp : Z -> option (Frame Play)) (s : Z) :
  (fetch_pbp_season read_pbp s = None <->
     read_pbp s = None /\ read_pbp PBP_FALLBACK_SEASON = None) /\
  (forall fr, fetch_pbp_season read_pbp s = Some fr ->
     In "__fallback_notice__" (pbp_columns fr) /\
     (fallback_notice fr = "" <-> read_pbp s <> None)).
Proof.
  assert (Hadd : forall cols, In "__fallback_notice__" (add_column "__fallback_notice__" cols)).
  { intros cols. unfold add_column. destruct (existsb _ cols) eqn:E.
    - apply existsb_exists in E. destruct E as [c [Hc Ec]]. apply String.eqb_eq in Ec. subst c. exact Hc.
    - apply in_or_app. right. left. reflexivity. }
  unfold fetch_pbp_season.
  destruct (read_pbp s) as [df|] eqn:Es.
  - split; [split; [discriminate|intros [H _]; discriminate]|].
    intros fr Hfr. injection Hfr as <-. simpl. split; [apply Hadd|]. split; [intros _; discriminate|reflexivity].
  - destruct (read_pbp PBP_FALLBACK_SEASON) as [df|].
    + split; [split; [discriminate|intros [_ H]; discriminate]|].
      intros fr Hfr. injection Hfr as <-. simpl. split; [apply Hadd|].
      split; [intros H; exfalso; exact (notice_text_nonempty _ _ H)|intros H; exfalso; apply H; reflexivity].
    + split; [tauto|]. intros fr Hfr. discriminate.
Qed.

(** *** build_units *)

(** X14: [build_units] returns the frames of [compute_team_unit_metrics]
    unchanged whatever the two adapter toggles and the SportsDataIO key are;
    it shows the ESPN notice exactly when the ESPN toggle is on, and the
    SportsDataIO notice exactly when that toggle is on and the key is
    present and non-empty (ESPN's first). *)
Theorem build_units_adapters_inert (pbp : list Play) (s w : Z) (espn sdio : bool)
    (key : option string) :
  let '(off, deff, infos) := build_units pbp s w espn sdio key in
  (off, deff) = compute_team_unit_metrics pbp s w /\
  infos = (if espn then [espn_info] else []) ++
          (if sdio && str_truthy key then [sdio_info] else []).
Proof.
  unfold build_units. destruct (compute_team_unit_metrics pbp s w) as [off deff].
  destruct espn, sdio; simpl; split; reflexivity.
Qed.

(** *** Schedules from nflverse *)

Lemma try_schedule_urls_spec (read : string -> option (Frame SchedRow)) (urls : list string) :
  try_schedule_urls read urls =
  match find (fun u => match read u with Some df => has_schedule_columns df | None => false end) urls with
  | Some u => match read u with
              | Some df => Some (mkFrame schedule_columns (rows df))
              | None => None
              end
  | None => None
  end.
Proof.
  induction urls as [|u urls IH]; simpl; [reflexivity|].
  destruct (read u) as [df|] eqn:E; [|exact IH].
  destruct (has_schedule_columns df); [rewrite E; reflexivity|exact IH].
Qed.

(** X15: [fetch_schedule] always returns a frame with exactly the columns
    season, week, gameday, away_team, home_team, game_type, in that order;
    its rows are those of the first nflverse URL (the [.gz] one first) that
    loads and has all six columns, and there are none when no URL does. *)
Theorem fetch_schedule_shape (read : string -> option (Frame SchedRow)) :
  columns (fetch_schedule read) = schedule_columns /\
  rows (fetch_schedule read) =
  match find (fun u => match read u with Some df => has_schedule_columns df | None => false end)
             SCHEDULE_URLS with
  | Some u => match read u with Some df => rows df | None => [] end
  | None => []
  end.
Proof.
  unfold fetch_schedule, _fetch_schedule_nflverse. rewrite try_schedule_urls_spec.
  destruct (find _ SCHEDULE_URLS) as [u|]; [|split; reflexivity].
  destruct (read u); split; reflexivity.
Qed.

Lemma schedule_section_without_nflverse (read : string -> option (Frame SchedRow))
    (sort_by_gameday : list SchedRow -> list SchedRow) (s w : Z) :
  (forall u, In u SCHEDULE_URLS ->
     match read u with Some df => has_schedule_columns df = false | None => True end) ->
  schedule_section sort_by_gameday (fetch_schedule read) s w = NoGamesWarning.
Proof.
  intros Hfail.
  assert (Hn : _fetch_schedule_nflverse read = None).
  { unfold _fetch_schedule_nflverse. rewrite try_schedule_urls_spec.
    destruct (find _ SCHEDULE_URLS) as [u|] eqn:E; [|reflexivity].
    apply find_some in E. destruct E as [Hu Hc]. specialize (Hfail u Hu).
    destruct (read u); [rewrite Hfail in Hc|]; discriminate. }
  unfold schedule_section, fetch_schedule. rewrite Hn. reflexivity.
Qed.

Lemma build_units_frames (pbp : list Play) (s w : Z) (espn sdio : bool) (key : option string) :
  exists infos, build_units pbp s w espn sdio key =
    (fst (compute_team_unit_metrics pbp s w), snd (compute_team_unit_metrics pbp s w), infos).
Proof.
  unfold build_units. destruct (compute_team_unit_metrics pbp s w) as [off deff].
  destruct espn, sdio; eexists; reflexivity.
Qed.

(** X16: the page never falls back to the ESPN schedule builder: when
    neither nflverse URL yields a schedule with the six columns, the page
    never shows picks; it either raises before the games section (the
    play-by-play cannot be loaded, or unitizing raises) or shows the
    "No regular-season games" warning, and it shows the warning whenever
    the play-by-play loads and both unitize steps succeed. *)
Theorem page_never_picks_without_nflverse (read_schedule : string -> option (Frame SchedRow))
    (read_pbp : Z -> option (Frame Play)) (sort_by_gameday : list SchedRow -> list SchedRow)
    (cfg : GameConfig) (s w : Z) (espn sdio : bool) (key : option string)
    (Hfail : forall u, In u SCHEDULE_URLS ->
       match read_schedule u with Some df => has_schedule_columns df = false | None => True end) :
  (page read_schedule read_pbp sort_by_gameday cfg s w espn sdio key = None \/
   page read_schedule read_pbp sort_by_gameday cfg s w espn sdio key = Some PageWarning) /\
  (forall pbp, fetch_pbp_season read_pbp s = Some pbp ->
     (exists of, unitize_offense (fst (compute_team_unit_metrics (pbp_rows pbp) s w)) = Ok of) ->
     (exists df, unitize_defense (snd (compute_team_unit_metrics (pbp_rows pbp) s w)) = Ok df) ->
     page read_schedule read_pbp sort_by_gameday cfg s w espn sdio key = Some PageWarning).
Proof.
  pose proof (schedule_section_without_nflverse read_schedule sort_by_gameday s w Hfail) as Hsec.
  unfold page. split.
  - destruct (fetch_pbp_season read_pbp s) as [pbp|]; [|left; reflexivity].
    destruct (build_units_frames (pbp_rows pbp) s w espn sdio key) as [infos ->].
    destruct (unitize_offense _) as [of|]; [|left; reflexivity].
    destruct (unitize_defense _) as [df|]; [|left; reflexivity].
    destruct (build_maps of df). rewrite Hsec. right. reflexivity.
  - intros pbp Hp [of Ho] [df Hd]. rewrite Hp.
    destruct (build_units_frames (pbp_rows pbp) s w espn sdio key) as [infos ->].
    rewrite Ho, Hd. destruct (build_maps of df). rewrite Hsec. reflexivity.
Qed.

Lemma page_never_picks_without_nflverse_witness :
  (forall u, In u SCHEDULE_URLS ->
     match (fun _ : string => @None (Frame SchedRow)) u with
     | Some df => has_schedule_columns df = false | None => True end) /\
  page (fun _ => None) fallback_sample_reader (fun l => l) default_config 2025 3 true true
       (Some "k") = Some PageWarning.
Proof.
  assert (H : forall u, In u SCHEDULE_URLS ->
     match (fun _ : string => @None (Frame SchedRow)) u with
     | Some df => has_schedule_columns df = false | None => True end) by (intros; exact I).
  split; [exact H|].
  set (pbp := mkPbp (add_column "__fallback_notice__" ["season"; "week"; "season_type"; "play_type"])
                    (map (set_season 2025%Z) sample_log)
                    (fallback_notice_text 2025%Z PBP_FALLBACK_SEASON)).
  assert (Hp : fetch_pbp_season fallback_sample_reader 2025%Z = Some pbp) by reflexivity.
  apply (proj2 (page_never_picks_without_nflverse (fun _ => None) fallback_sample_reader
                  (fun l => l) default_config 2025%Z 3%Z true true (Some "k") H) pbp Hp).
  - exists (match unitize_offense (fst (compute_team_unit_metrics (pbp_rows pbp) 2025%Z 3%Z)) with
            | Ok o => o | Raise _ => [] end).
    vm_compute. reflexivity.
  - exists (match unitize_defense (snd (compute_team_unit_metrics (pbp_rows pbp) 2025%Z 3%Z)) with
            | Ok o => o | Raise _ => [] end).
    vm_compute. reflexivity.
Defined.

(** *** Schedules from ESPN *)

Lemma nonempty_true {A} (l : list A) : nonempty l = true <-> l <> [].
Proof. destruct l; simpl; split; congruence. Qed.

Lemma in_espn_weeks (wk : Z) : In wk espn_weeks <-> (1 <= wk <= 18)%Z.
Proof.
  unfold espn_weeks. rewrite in_map_iff. split.
  - intros [n [<- Hn]]. apply in_seq in Hn. lia.
  - intros Hw. exists (Z.to_nat wk). split; [lia|]. apply in_seq. lia.
Qed.

Lemma event_row_some (upper : pystr -> pystr) (s wk : Z) (ev : Json) (r : EspnRow) :
  event_row upper s wk ev = Some (Some r) ->
  e_season r = s /\ e_week r = wk /\ e_game_type r = py "REG" /\ e_home r <> [] /\ e_away r <> [].
Proof.
  unfold event_row. intros H. repeat case_match; try discriminate.
  injection H as <-. simpl.
  match goal with
  | E : (nonempty ?h && nonempty ?a)%bool = true |- _ =>
      apply andb_true_iff in E; destruct E as [E1 E2];
      apply nonempty_true in E1; apply nonempty_true in E2
  end.
  repeat split; assumption.
Qed.

Lemma events_rows_in (upper : pystr -> pystr) (s wk : Z) (evs : list Json) (rs : list EspnRow) :
  events_rows upper s wk evs = Some rs ->
  forall r, In r rs -> exists ev, event_row upper s wk ev = Some (Some r).
Proof.
  revert rs. induction evs as [|ev evs IH]; simpl; intros rs H r Hr.
  - injection H as <-. destruct Hr.
  - destruct (event_row upper s wk ev) as [o|] eqn:E; [|discriminate].
    destruct (events_rows upper s wk evs) as [rs'|] eqn:E'; [|discriminate].
    injection H as <-. destruct o as [x|].
    + destruct Hr as [<-|Hr]; [exists ev; exact E|exact (IH rs' eq_refl r Hr)].
    + exact (IH rs' eq_refl r Hr).
Qed.

Lemma week_rows_in (upper : pystr -> pystr) (fetch : Z -> Z -> option Json) (s wk : Z)
    (rs : list EspnRow) :
  week_rows upper fetch s wk = Some rs ->
  forall r, In r rs -> exists ev, event_row upper s wk ev = Some (Some r).
Proof.
  unfold week_rows. intros H r Hr.
  destruct (fetch s wk) as [data|]; [|injection H as <-; destruct Hr].
  destruct (py_get data _ _) as [evs|]; [|discriminate].
  destruct (py_iter evs) as [l|]; [|discriminate].
  exact (events_rows_in upper s wk l rs H r Hr).
Qed.

Lemma weeks_rows_in (upper : pystr -> pystr) (fetch : Z -> Z -> option Json) (s : Z)
    (wks : list Z) (rs : list EspnRow) :
  weeks_rows upper fetch s wks = Some rs ->
  forall r, In r rs -> exists wk ev, In wk wks /\ event_row upper s wk ev = Some (Some r).
Proof.
  revert rs. induction wks as [|wk wks IH]; simpl; intros rs H r Hr.
  - injection H as <-. destruct Hr.
  - destruct (week_rows upper fetch s wk) as [a|] eqn:E; [|discriminate].
    destruct (weeks_rows upper fetch s wks) as [b|] eqn:E'; [|discriminate].
    injection H as <-. apply in_app_or in Hr. destruct Hr as [Hr|Hr].
    + destruct (week_rows_in upper fetch s wk a E r Hr) as [ev Hev].
      exists wk, ev. auto.
    + destruct (IH b eq_refl r Hr) as (w & ev & Hw & Hev). exists w, ev. auto.
Qed.

(** X17: whenever [_fetch_schedule_espn_full_season] returns, its frame has
    the six schedule columns, even with no rows, and every row carries the
    requested season, a week from 1 to 18, game type "REG" and non-empty
    home and away team codes. *)
Theorem espn_schedule_rows_well_formed (upper : pystr -> pystr)
    (fetch : Z -> Z -> option Json) (s : Z) (fr : Frame EspnRow)
    (H : _fetch_schedule_espn_full_season upper fetch s = Some fr) :
  columns fr = schedule_columns /\
  forall r, In r (rows fr) ->
    e_season r = s /\ (1 <= e_week r <= 18)%Z /\ e_game_type r = py "REG" /\
    e_home r <> [] /\ e_away r <> [].
Proof.
  unfold _fetch_schedule_espn_full_season in H.
  destruct (weeks_rows upper fetch s espn_weeks) as [rs|] eqn:E; [|discriminate].
  injection H as <-. split; [reflexivity|]. simpl. intros r Hr.
  destruct (weeks_rows_in upper fetch s espn_weeks rs E r Hr) as (wk & ev & Hw & Hev).
  apply in_espn_weeks in Hw.
  destruct (event_row_some upper s wk ev r Hev) as (A & B & C & D & F).
  subst. auto.
Qed.

Lemma espn_schedule_rows_well_formed_witness :
  _fetch_schedule_espn_full_season ascii_upper sample_espn_fetch 2025 =
    Some (mkFrame schedule_columns
            [mkEspn 2025 3 (JStr (py "2025-09-21T17:00Z")) (py "NYG") (py "KC") (py "REG")]) /\
  (1 <= 3 <= 18)%Z.
Proof.
  assert (H : _fetch_schedule_espn_full_season ascii_upper sample_espn_fetch 2025 =
    Some (mkFrame schedule_columns
            [mkEspn 2025 3 (JStr (py "2025-09-21T17:00Z")) (py "NYG") (py "KC") (py "REG")]))
    by (vm_compute; reflexivity).
  split; [exact H|].
  destruct (espn_schedule_rows_well_formed ascii_upper sample_espn_fetch 2025 _ H) as [_ Hr].
  exact (proj1 (proj2 (Hr _ (or_introl eq_refl)))).
Defined.

Lemma weeks_rows_ext (upper : pystr -> pystr) (f1 f2 : Z -> Z -> option Json) (s : Z)
    (wks : list Z) :
  (forall wk, week_rows upper f1 s wk = week_rows upper f2 s wk) ->
  weeks_rows upper f1 s wks = weeks_rows upper f2 s wks.
Proof.
  intros Hw. induction wks as [|wk wks IH]; simpl; [reflexivity|]. rewrite Hw, IH. reflexivity.
Qed.

(** X18: in the ESPN season builder a week whose download (or JSON decode)
    fails counts exactly like a week whose payload is an empty object: it
    adds no row and the other weeks are unaffected. *)
Theorem espn_failed_week_is_empty (upper : pystr -> pystr) (fetch : Z -> Z -> option Json)
    (s k : Z) :
  _fetch_schedule_espn_full_season upper
    (fun s' w => if Z.eqb w k then None else fetch s' w) s =
  _fetch_schedule_espn_full_season upper
    (fun s' w => if Z.eqb w k then Some (JObj []) else fetch s' w) s.
Proof.
  unfold _fetch_schedule_espn_full_season.
  rewrite (weeks_rows_ext upper _ (fun s' w => if Z.eqb w k then Some (JObj []) else fetch s' w));
    [reflexivity|].
  intros wk. unfold week_rows. destruct (Z.eqb wk k); reflexivity.
Qed.

Lemma weeks_rows_none (upper : pystr -> pystr) (fetch : Z -> Z -> option Json) (s k : Z)
    (wks : list Z) :
  In k wks -> week_rows upper fetch s k = None -> weeks_rows upper fetch s wks = None.
Proof.
  intros Hk Hn. induction wks as [|wk wks IH]; simpl in *; [destruct Hk|].
  destruct Hk as [->|Hk].
  - rewrite Hn. reflexivity.
  - destruct (week_rows upper fetch s wk); [|reflexivity]. rewrite (IH Hk). reflexivity.
Qed.

(** X19: only the download and decode of a week are guarded: if the decoded
    payload of any week 1..18 is not a JSON object (a list, a string, a
    number, ...), [data.get] raises and the whole season build raises. *)
Theorem espn_non_object_payload_raises (upper : pystr -> pystr)
    (fetch : Z -> Z -> option Json) (s k : Z) (data : Json)
    (Hk : (1 <= k <= 18)%Z) (Hd : fetch s k = Some data)
    (Hobj : forall kvs, data <> JObj kvs) :
  _fetch_schedule_espn_full_season upper fetch s = None.
Proof.
  unfold _fetch_schedule_espn_full_season.
  rewrite (weeks_rows_none upper fetch s k espn_weeks); [reflexivity|apply in_espn_weeks; exact Hk|].
  unfold week_rows. rewrite Hd.
  destruct data; try reflexivity. exfalso. exact (Hobj kvs eq_refl).
Qed.

Lemma espn_non_object_payload_raises_witness :
  (1 <= 5 <= 18)%Z /\
  (fun s w => if Z.eqb w 5 then Some (JArr []) else sample_espn_fetch s w) 2025%Z 5%Z = Some (JArr []) /\
  (forall kvs, JArr [] <> JObj kvs) /\
  _fetch_schedule_espn_full_season ascii_upper
    (fun s w => if Z.eqb w 5 then Some (JArr []) else sample_espn_fetch s w) 2025%Z = None.
Proof.
  assert (H1 : (1 <= 5 <= 18)%Z) by lia.
  assert (H2 : (fun s w => if Z.eqb w 5 then Some (JArr []) else sample_espn_fetch s w) 2025%Z 5%Z
               = Some (JArr [])) by reflexivity.
  assert (H3 : forall kvs, JArr [] <> JObj kvs) by discriminate.
  split; [exact H1|]. split; [exact H2|]. split; [exact H3|].
  exact (espn_non_object_payload_raises ascii_upper _ 2025%Z 5%Z (JArr []) H1 H2 H3).
Defined.

Lemma event_row_espn_event (upper : pystr -> pystr) (s wk : Z) (d : Json) (h a : pystr) :
  event_row upper s wk (espn_event (d, h, a)) =
  if nonempty (upper h) && nonempty (upper a)
  then Some (Some (mkEspn s wk d (upper a) (upper h) (py "REG")))
  else Some None.
Proof. destruct h, a; reflexivity. Qed.

Definition espn_game_row (upper : pystr -> pystr) (s wk : Z) (g : Json * pystr * pystr) : EspnRow :=
  let '(d, h, a) := g in mkEspn s wk d (upper a) (upper h) (py "REG").

Lemma events_rows_games (upper : pystr -> pystr) (s wk : Z) (gs : list (Json * pystr * pystr)) :
  forallb (fun g => nonempty (upper (snd (fst g))) && nonempty (upper (snd g))) gs = true ->
  events_rows upper s wk (map espn_event gs) = Some (map (espn_game_row upper s wk) gs).
Proof.
  induction gs as [|[[d h] a] gs IH]; cbn [map events_rows forallb]; intros H; [reflexivity|].
  apply andb_true_iff in H. destruct H as [Hg Hgs]. simpl in Hg.
  rewrite event_row_espn_event, Hg, (IH Hgs). reflexivity.
Qed.

(** X20: decoding a scoreboard in the shape ESPN serves (one event per game
    with a home and an away competitor) gives back the games: one row per
    game, weeks in order 1..18 and games in payload order, with the
    upper-cased team codes, the event date and game type "REG", provided
    every upper-cased code is non-empty. *)
Theorem espn_payload_round_trip (upper : pystr -> pystr)
    (games : Z -> list (Json * pystr * pystr)) (s : Z)
    (Hcodes : forallb (fun w => forallb (fun g => nonempty (upper (snd (fst g))) &&
                                                   nonempty (upper (snd g))) (games w))
                      espn_weeks = true) :
  _fetch_schedule_espn_full_season upper (fun _ w => Some (espn_payload (games w))) s =
  Some (mkFrame schedule_columns
          (flat_map (fun w => map (espn_game_row upper s w) (games w)) espn_weeks)).
Proof.
  unfold _fetch_schedule_espn_full_season.
  induction espn_weeks as [|w ws IH]; simpl in *; [reflexivity|].
  apply andb_true_iff in Hcodes. destruct Hcodes as [Hw Hws].
  unfold week_rows. simpl. rewrite (events_rows_games upper s w (games w) Hw).
  destruct (weeks_rows upper _ s ws) as [rs|]; [|discriminate (IH Hws)].
  injection (IH Hws) as ->. reflexivity.
Qed.

Lemma espn_payload_round_trip_witness :
  forallb (fun w => forallb (fun g => nonempty (ascii_upper (snd (fst g))) &&
                                       nonempty (ascii_upper (snd g))) (sample_espn_games w))
          espn_weeks = true /\
  _fetch_schedule_espn_full_season ascii_upper (fun _ w => Some (espn_payload (sample_espn_games w))) 2025 =
  Some (mkFrame schedule_columns
          (flat_map (fun w => map (espn_game_row ascii_upper 2025 w) (sample_espn_games w)) espn_weeks)).
Proof.
  assert (H : forallb (fun w => forallb (fun g => nonempty (ascii_upper (snd (fst g))) &&
                                       nonempty (ascii_upper (snd g))) (sample_espn_games w))
          espn_weeks = true) by (vm_compute; reflexivity).
  split; [exact H|].
  exact (espn_payload_round_trip ascii_upper sample_espn_games 2025%Z H).
Defined.
